(** * Customers, restaurants and reviews (lib/classes/many_to_many.py)

    A shallow embedding of the three classes [Customer], [Restaurant] and
    [Review] of [many_to_many.py], together with the properties of their
    constructors, setters and query methods.

    Python objects live in a heap and are compared by identity (none of the
    classes defines [__eq__]); the class-level lists [Customer.all],
    [Restaurant.all] and [Review.all] hold references into that heap.
    Methods that mutate run in a state-and-exception monad; the query
    methods only read the world and return a [result]. *)

From Stdlib Require Import ZArith String List Lia Bool.
From Stdlib Require Import Floats.SpecFloat.
From stdpp Require Import base list sorting gmap.

Local Open Scope Z_scope.

(** ** Python values and exceptions *)

Definition addr := nat.

(** Binary64 floats are the IEEE 754 specification floats of the standard
    library. *)
Definition prec : Z := 53.
Definition emax : Z := 1024.

(** The values that reach the constructors and setters.  A [str] is the
    sequence of its characters, so [String.length] is Python's [len]; an
    object is the address of its heap cell. *)
Inductive pyval :=
  | VNone
  | VBool (b : bool)
  | VInt (z : Z)
  | VFloat (f : spec_float)
  | VStr (s : string)
  | VRef (a : addr).

Inductive exn :=
  | AttributeError
  | OverflowError
  | ZeroDivisionError.

Inductive result (A : Type) :=
  | Ok (a : A)
  | Raise (e : exn).
Arguments Ok {A} a.
Arguments Raise {A} e.

#[global] Instance result_ret : MRet result := fun _ a => Ok a.
#[global] Instance result_bind : MBind result := fun _ _ f m =>
  match m with
  | Ok a => f a
  | Raise e => Raise e
  end.

(** ** Objects *)

(** The instance dictionary of each class: an attribute that has never been
    assigned is [None] (reading it raises [AttributeError]).  The setters
    are the only writers of these slots, so [_first_name], [_last_name] and
    [_name] hold strings, [_customer] holds a reference and [_rating] an
    integer ([True] is an [int] in Python and is kept as its value [1]). *)
Record CustomerObj := { _first_name : option string; _last_name : option string }.
Record RestaurantObj := { _name : option string }.
Record ReviewObj := {
  _customer : option addr;
  _restaurant : option addr;
  _rating : option Z
}.

Inductive obj :=
  | OCustomer (c : CustomerObj)
  | ORestaurant (r : RestaurantObj)
  | OReview (v : ReviewObj).

(** The world: the heap and the three class attributes [all]. *)
Record world := {
  heap : list obj;
  Customer_all : list addr;
  Restaurant_all : list addr;
  Review_all : list addr
}.

Definition empty_world : world :=
  {| heap := []; Customer_all := []; Restaurant_all := []; Review_all := [] |}.

Definition set_heap (h : list obj) (w : world) : world :=
  {| heap := h; Customer_all := Customer_all w;
     Restaurant_all := Restaurant_all w; Review_all := Review_all w |}.

(** ** The state-and-exception monad of the mutating methods *)

Definition M (A : Type) : Type := world -> result A * world.

#[global] Instance M_ret : MRet M := fun _ a w => (Ok a, w).
#[global] Instance M_bind : MBind M := fun _ _ f m w =>
  match m w with
  | (Ok a, w') => f a w'
  | (Raise e, w') => (Raise e, w')
  end.

Definition raise {A} (e : exn) : M A := fun w => (Raise e, w).
Definition get_world : M world := fun w => (Ok w, w).

(** [object.__new__]: a fresh object at the next free address. *)
Definition alloc (o : obj) : M addr := fun w =>
  (Ok (length (heap w)), set_heap (heap w ++ [o]) w).

(** Update of the object at [a] (stdpp's list insert; every address handed
    out by [alloc] is in range). *)
Definition store (a : addr) (o : obj) : M unit := fun w =>
  (Ok tt, set_heap (<[a := o]> (heap w)) w).

(** ** Builtins *)

(** [bool] is a subclass of [int]. *)
Definition isinstance_int (v : pyval) : bool :=
  match v with VInt _ | VBool _ => true | _ => false end.

Definition int_value (v : pyval) : Z :=
  match v with
  | VInt z => z
  | VBool b => if b then 1 else 0
  | _ => 0
  end.

Definition isinstance_Customer (w : world) (v : pyval) : bool :=
  match v with
  | VRef a => match heap w !! a with Some (OCustomer _) => true | _ => false end
  | _ => false
  end.

Definition isinstance_Restaurant (w : world) (v : pyval) : bool :=
  match v with
  | VRef a => match heap w !! a with Some (ORestaurant _) => true | _ => false end
  | _ => false
  end.

(** [isinstance(value, str) and 1 <= len(value) <= 25], the guard of the
    three name setters. *)
Definition valid_name (v : pyval) : bool :=
  match v with
  | VStr s => (1 <=? Z.of_nat (String.length s)) && (Z.of_nat (String.length s) <=? 25)
  | _ => false
  end.

Definition str_value (v : pyval) : string :=
  match v with VStr s => s | _ => EmptyString end.

Definition ref_value (v : pyval) : addr :=
  match v with VRef a => a | _ => O end.

(** A list comprehension with a condition, [[x for x in l if p(x)]], and
    one without, [[f(x) for x in l]]; the first exception raised by [p] or
    [f] ends the comprehension. *)
Fixpoint filterR {A} (p : A -> result bool) (l : list A) : result (list A) :=
  match l with
  | [] => Ok []
  | x :: l' =>
      b ← p x;
      r ← filterR p l';
      Ok (if b : bool then x :: r else r)
  end.

Fixpoint mapR {A B} (f : A -> result B) (l : list A) : result (list B) :=
  match l with
  | [] => Ok []
  | x :: l' =>
      y ← f x;
      r ← mapR f l';
      Ok (y :: r)
  end.

(** ** class Customer *)

Module Customer.

(** Methods are looked up on instances of their class; applied to any
    other address they raise [AttributeError]. *)
Definition self_obj (w : world) (self : addr) : result CustomerObj :=
  match heap w !! self with
  | Some (OCustomer c) => Ok c
  | _ => Raise AttributeError
  end.

Definition first_name (w : world) (self : addr) : result string :=
  c ← self_obj w self;
  match _first_name c with
  | Some s => Ok s
  | None => Raise AttributeError
  end.

Definition set_first_name (self : addr) (value : pyval) : M unit :=
  w ← get_world;
  match self_obj w self with
  | Ok c =>
      if valid_name value
      then store self (OCustomer {| _first_name := Some (str_value value);
                                    _last_name := _last_name c |})
      else mret tt
  | Raise e => raise e
  end.

Definition last_name (w : world) (self : addr) : result string :=
  c ← self_obj w self;
  match _last_name c with
  | Some s => Ok s
  | None => Raise AttributeError
  end.

Definition set_last_name (self : addr) (value : pyval) : M unit :=
  w ← get_world;
  match self_obj w self with
  | Ok c =>
      if valid_name value
      then store self (OCustomer {| _first_name := _first_name c;
                                    _last_name := Some (str_value value) |})
      else mret tt
  | Raise e => raise e
  end.

Definition register (self : addr) : M unit := fun w =>
  (Ok tt, {| heap := heap w; Customer_all := Customer_all w ++ [self];
             Restaurant_all := Restaurant_all w; Review_all := Review_all w |}).

(** [Customer(first_name, last_name)]. *)
Definition init (first_name last_name : pyval) : M addr :=
  self ← alloc (OCustomer {| _first_name := None; _last_name := None |});
  set_first_name self first_name;;
  set_last_name self last_name;;
  register self;;
  mret self.

End Customer.

(** ** class Restaurant (constructor and name) *)

Module Restaurant.

Definition self_obj (w : world) (self : addr) : result RestaurantObj :=
  match heap w !! self with
  | Some (ORestaurant r) => Ok r
  | _ => Raise AttributeError
  end.

Definition name (w : world) (self : addr) : result string :=
  r ← self_obj w self;
  match _name r with
  | Some s => Ok s
  | None => Raise AttributeError
  end.

Definition set_name (self : addr) (value : pyval) : M unit :=
  w ← get_world;
  match self_obj w self with
  | Ok _ =>
      if valid_name value
      then store self (ORestaurant {| _name := Some (str_value value) |})
      else mret tt
  | Raise e => raise e
  end.

Definition register (self : addr) : M unit := fun w =>
  (Ok tt, {| heap := heap w; Customer_all := Customer_all w;
             Restaurant_all := Restaurant_all w ++ [self];
             Review_all := Review_all w |}).

(** [Restaurant(name)]. *)
Definition init (name : pyval) : M addr :=
  self ← alloc (ORestaurant {| _name := None |});
  set_name self name;;
  register self;;
  mret self.

End Restaurant.

(** ** class Review *)

Module Review.

Definition self_obj (w : world) (self : addr) : result ReviewObj :=
  match heap w !! self with
  | Some (OReview v) => Ok v
  | _ => Raise AttributeError
  end.

Definition rating (w : world) (self : addr) : result Z :=
  v ← self_obj w self;
  match _rating v with
  | Some k => Ok k
  | None => Raise AttributeError
  end.

(** [isinstance(val, int) and 1 <= val <= 5 and not hasattr(self, '_rating')] *)
Definition set_rating (self : addr) (val : pyval) : M unit :=
  w ← get_world;
  match self_obj w self with
  | Ok v =>
      if isinstance_int val && (1 <=? int_value val) && (int_value val <=? 5)
         && negb (bool_decide (is_Some (_rating v)))
      then store self (OReview {| _customer := _customer v;
                                  _restaurant := _restaurant v;
                                  _rating := Some (int_value val) |})
      else mret tt
  | Raise e => raise e
  end.

Definition customer (w : world) (self : addr) : result addr :=
  v ← self_obj w self;
  match _customer v with
  | Some c => Ok c
  | None => Raise AttributeError
  end.

Definition set_customer (self : addr) (val : pyval) : M unit :=
  w ← get_world;
  match self_obj w self with
  | Ok v =>
      if isinstance_Customer w val
      then store self (OReview {| _customer := Some (ref_value val);
                                  _restaurant := _restaurant v;
                                  _rating := _rating v |})
      else mret tt
  | Raise e => raise e
  end.

Definition restaurant (w : world) (self : addr) : result addr :=
  v ← self_obj w self;
  match _restaurant v with
  | Some r => Ok r
  | None => Raise AttributeError
  end.

(** The property [restaurant] is declared with a getter only: assigning
    to it raises [AttributeError] (property without a setter). *)
Definition set_restaurant (self : addr) (val : pyval) : M unit :=
  raise AttributeError.

Definition register (self : addr) : M unit := fun w =>
  (Ok tt, {| heap := heap w; Customer_all := Customer_all w;
             Restaurant_all := Restaurant_all w;
             Review_all := Review_all w ++ [self] |}).

(** [Review(customer, restaurant, rating)]. *)
Definition init (customer restaurant rating : pyval) : M addr :=
  self ← alloc (OReview {| _customer := None; _restaurant := None;
                           _rating := None |});
  set_customer self customer;;
  set_restaurant self restaurant;;
  set_rating self rating;;
  register self;;
  mret self.

End Review.

(** ** Float arithmetic used by [average_star_rating] *)

(** [a / b] on Python ints: the binary64 float nearest to the exact
    quotient (ties to even), [ZeroDivisionError] for [b = 0] and
    [OverflowError] when the quotient is too large for a float.  The
    integers enter the IEEE division as exact mantissas with exponent 0. *)
Definition py_truediv (a b : Z) : result spec_float :=
  if b =? 0 then Raise ZeroDivisionError
  else if a =? 0 then Ok (S754_zero (b <? 0))
  else
    match SFdiv prec emax (S754_finite (a <? 0) (Z.to_pos (Z.abs a)) 0)
                          (S754_finite (b <? 0) (Z.to_pos (Z.abs b)) 0) with
    | S754_infinity _ | S754_nan => Raise OverflowError
    | f => Ok f
    end.

(** Nearest integer to [a / b] for [0 <= a], [0 < b], ties to even. *)
Definition round_half_even_div (a b : Z) : Z :=
  let q := a / b in
  let r := a mod b in
  match 2 * r ?= b with
  | Lt => q
  | Gt => q + 1
  | Eq => if Z.even q then q else q + 1
  end.

(** The float written [d/10] in decimal (the float nearest to it). *)
Definition float_of_tenths (s : bool) (d : Z) : result spec_float :=
  if d =? 0 then Ok (S754_zero s)
  else
    match SFdiv prec emax (S754_finite s (Z.to_pos d) 0)
                          (S754_finite false 10 0) with
    | S754_infinity _ | S754_nan => Raise OverflowError
    | f => Ok f
    end.

(** [round(x, 1)] on a float.  CPython converts [x] to the decimal with one
    digit after the point that is nearest to the exact value of [x] (ties
    to even) and reads that decimal back as a float; infinities and NaN
    round to themselves. *)
Definition py_round1 (x : spec_float) : result spec_float :=
  match x with
  | S754_finite s m e =>
      if 0 <=? e then Ok x
      else float_of_tenths s (round_half_even_div (10 * Zpos m) (2 ^ (- e)))
  | _ => Ok x
  end.

Definition py_sum (l : list Z) : Z := foldl Z.add 0 l.

(** [x < y] on floats. *)
Definition float_lt (x y : spec_float) : bool := SFltb x y.

(** ** [sorted(l, key=..., reverse=True)]

    The keys are computed once per element; the list is reversed, sorted
    in ascending order by a stable sort that compares keys with [<] only,
    and reversed again. *)
Section Sorted.
Context {K A : Type} (lt : K -> K -> bool).

(** [x] precedes every element already placed that is not smaller. *)
Fixpoint insert_by_key (x : K * A) (l : list (K * A)) : list (K * A) :=
  match l with
  | [] => [x]
  | y :: l' => if lt (fst y) (fst x) then y :: insert_by_key x l' else x :: y :: l'
  end.

Fixpoint stable_sort (l : list (K * A)) : list (K * A) :=
  match l with
  | [] => []
  | x :: l' => insert_by_key x (stable_sort l')
  end.

Definition sorted_reverse (l : list (K * A)) : list (K * A) :=
  reverse (stable_sort (reverse l)).

(** [x] may stand before [y] in ascending order: [y] is not smaller. *)
Definition ascending (x y : K * A) : Prop := lt (fst y) (fst x) = false.
Definition descending (x y : K * A) : Prop := lt (fst x) (fst y) = false.

(** [p] has a key equal to [k]: neither is smaller than the other. *)
Definition same_key (k : K) (p : K * A) : Prop :=
  lt k (fst p) = false /\ lt (fst p) k = false.

#[global] Instance same_key_dec k p : Decision (same_key k p).
Proof. unfold same_key. apply _. Defined.
End Sorted.

(** Sorting by a key function. *)
Section SortedKeys.
Context {K A : Type} (lt : K -> K -> bool) (key : A -> K).

Definition with_key (a : A) : K * A := (key a, a).

(** No later element has a greater key. *)
Definition not_below (a b : A) : Prop := lt (key a) (key b) = false.

(** [a] has a key equal to [k]. *)
Definition key_equal (k : K) (a : A) : Prop :=
  lt k (key a) = false /\ lt (key a) k = false.

#[global] Instance key_equal_dec k a : Decision (key_equal k a).
Proof. unfold key_equal. apply _. Defined.

Definition keyed (p : K * A) : Prop := fst p = key (snd p).
End SortedKeys.

(** ** Query methods (they traverse [Review.all]) *)

(** [[review for review in Review.all if review.customer == self]] *)
Definition Customer_reviews (w : world) (self : addr) : result (list addr) :=
  filterR (fun review => c ← Review.customer w review; Ok (bool_decide (c = self)))
          (Review_all w).

(** [list(set(...))]: the distinct elements, in the iteration order of the
    set, which Python leaves unspecified. *)
Definition list_of_set (l : list addr) : list addr :=
  elements (list_to_set l : gset addr).

Definition Customer_restaurants (w : world) (self : addr) : result (list addr) :=
  rs ← Customer_reviews w self;
  xs ← mapR (Review.restaurant w) rs;
  Ok (list_of_set xs).

Definition Customer_num_negative_reviews (w : world) (self : addr) : result Z :=
  rs ← Customer_reviews w self;
  neg ← filterR (fun review => k ← Review.rating w review; Ok (k <=? 2)) rs;
  Ok (Z.of_nat (length neg)).

(** [[review for review in Review.all if review.restaurant == self]] *)
Definition Restaurant_reviews (w : world) (self : addr) : result (list addr) :=
  filterR (fun review => r ← Review.restaurant w review; Ok (bool_decide (r = self)))
          (Review_all w).

Definition Restaurant_customers (w : world) (self : addr) : result (list addr) :=
  rs ← Restaurant_reviews w self;
  xs ← mapR (Review.customer w) rs;
  Ok (list_of_set xs).

Definition Restaurant_average_star_rating (w : world) (self : addr)
  : result spec_float :=
  rs ← Restaurant_reviews w self;
  ratings ← mapR (Review.rating w) rs;
  match ratings with
  | [] => Ok (S754_zero false)
  | _ => x ← py_truediv (py_sum ratings) (Z.of_nat (length ratings));
         py_round1 x
  end.

Definition Restaurant_top_two_restaurants (w : world) : result (list addr) :=
  keyed ← mapR (fun restaurant =>
                  _ ← Restaurant.self_obj w restaurant;
                  k ← Restaurant_average_star_rating w restaurant;
                  Ok (k, restaurant))
               (Restaurant_all w);
  Ok (take 2 (snd <$> sorted_reverse float_lt keyed)).

(** ** Vocabulary of the properties *)

(** What a Review at address [a] refers to, as far as it is set. *)
Definition customer_of (w : world) (a : addr) : option addr :=
  match heap w !! a with Some (OReview v) => _customer v | _ => None end.
Definition restaurant_of (w : world) (a : addr) : option addr :=
  match heap w !! a with Some (OReview v) => _restaurant v | _ => None end.
Definition rating_of (w : world) (a : addr) : option Z :=
  match heap w !! a with Some (OReview v) => _rating v | _ => None end.

(** A Review whose three attributes are set, as the constructor means to
    leave it. *)
Definition complete_review (w : world) (a : addr) : Prop :=
  is_Some (customer_of w a) /\ is_Some (restaurant_of w a) /\
  is_Some (rating_of w a).

Definition reviews_complete (w : world) : Prop :=
  Forall (complete_review w) (Review_all w).

Definition rating_at_most (w : world) (n : Z) (a : addr) : Prop :=
  match rating_of w a with Some k => k <= n | None => False end.

#[global] Instance rating_at_most_dec w n a : Decision (rating_at_most w n a).
Proof. unfold rating_at_most. destruct (rating_of w a); apply _. Defined.

Definition not_nan (x : spec_float) : Prop := x <> S754_nan.

(** The average of a restaurant on which [average_star_rating()] returns. *)
Definition average_of (w : world) (r : addr) : spec_float :=
  match Restaurant_average_star_rating w r with
  | Ok k => k
  | Raise _ => S754_zero false
  end.

Definition is_restaurant (w : world) (r : addr) : Prop :=
  exists o, heap w !! r = Some (ORestaurant o).

(** The floats 4.0, 4.5, 3.0 and 5.0. *)
Definition float_4_0 : spec_float := S754_finite false 4503599627370496 (-50).
Definition float_4_5 : spec_float := S754_finite false 5066549580791808 (-50).
Definition float_3_0 : spec_float := S754_finite false 6755399441055744 (-51).
Definition float_5_0 : spec_float := S754_finite false 5629499534213120 (-50).

(** Where the exact quotient lies between [q] and [q + 1], for a division
    by [n] that leaves the remainder [r]. *)
Definition quotient_location (n r : Z) : location :=
  if r =? 0 then loc_Exact else loc_Inexact (2 * r ?= n).

(** ** Sample worlds *)

(** The world after [c = Customer("Ada", "Lovelace")] and
    [r = Restaurant("Luigi's")]. *)
Definition ada_and_luigi : world :=
  snd (Restaurant.init (VStr "Luigi's")
         (snd (Customer.init (VStr "Ada") (VStr "Lovelace") empty_world))).

(** A world holding one Review at address 2, by the customer at 0 for the
    restaurant at 1, rated 4. *)
Definition one_review : world :=
  {| heap := heap ada_and_luigi ++
       [OReview {| _customer := Some 0%nat; _restaurant := Some 1%nat;
                   _rating := Some 4 |}];
     Customer_all := [0%nat]; Restaurant_all := [1%nat]; Review_all := [2%nat] |}.

Definition review (c r : addr) (k : Z) : obj :=
  OReview {| _customer := Some c; _restaurant := Some r; _rating := Some k |}.

(** Two customers (0, 1), three restaurants A, B, C (2, 3, 4) and four
    reviews (5 to 8): A is rated 4 and 5 by customer 0, B is rated 3 by
    customer 1, C is rated 5 by customer 0. *)
Definition bistro : world :=
  {| heap := [ OCustomer {| _first_name := Some "Ada"%string;
                            _last_name := Some "Lovelace"%string |};
               OCustomer {| _first_name := Some "Alan"%string;
                            _last_name := Some "Turing"%string |};
               ORestaurant {| _name := Some "A"%string |};
               ORestaurant {| _name := Some "B"%string |};
               ORestaurant {| _name := Some "C"%string |};
               review 0%nat 2%nat 4; review 0%nat 2%nat 5; review 1%nat 3%nat 3;
               review 0%nat 4%nat 5 ];
     Customer_all := [0; 1]%nat;
     Restaurant_all := [2; 3; 4]%nat;
     Review_all := [5; 6; 7; 8]%nat |}.

(** One customer (0) who rated one restaurant (1) four times: 1, 2, 3, 5. *)
Definition critic : world :=
  {| heap := [ OCustomer {| _first_name := Some "Ada"%string;
                            _last_name := Some "Lovelace"%string |};
               ORestaurant {| _name := Some "A"%string |};
               review 0%nat 1%nat 1; review 0%nat 1%nat 2; review 0%nat 1%nat 3;
               review 0%nat 1%nat 5 ];
     Customer_all := [0]%nat;
     Restaurant_all := [1]%nat;
     Review_all := [2; 3; 4; 5]%nat |}.

(** One customer (0) who rated one restaurant (1) three times: 3, 4, 5. *)
Definition trattoria : world :=
  {| heap := [ OCustomer {| _first_name := Some "Ada"%string;
                            _last_name := Some "Lovelace"%string |};
               ORestaurant {| _name := Some "A"%string |};
               review 0%nat 1%nat 3; review 0%nat 1%nat 4; review 0%nat 1%nat 5 ];
     Customer_all := [0]%nat;
     Restaurant_all := [1]%nat;
     Review_all := [2; 3; 4]%nat |}.

(** ** [Customer.has_reviewed_restaurant] *)

(** [any(p(x) for x in l)]: the generator is consumed up to the first
    element for which [p] holds; an exception raised on the way ends it. *)
Fixpoint anyR {A} (p : A -> result bool) (l : list A) : result bool :=
  match l with
  | [] => Ok false
  | x :: l' =>
      b ← p x;
      if b : bool then Ok true else anyR p l'
  end.

(** [obj == v] for an instance [obj] of a class without [__eq__]: true for
    the very same object only. *)
Definition same_object (a : addr) (v : pyval) : bool :=
  match v with
  | VRef b => bool_decide (a = b)
  | _ => false
  end.

(** [any(review.restaurant == restaurant for review in self.reviews())] *)
Definition Customer_has_reviewed_restaurant (w : world) (self : addr)
    (restaurant : pyval) : result bool :=
  rs ← Customer_reviews w self;
  anyR (fun review => r ← Review.restaurant w review;
                      Ok (same_object r restaurant)) rs.

(** ** Programs over the three classes *)

Definition is_customer (w : world) (a : addr) : Prop :=
  exists o, heap w !! a = Some (OCustomer o).

Definition is_review (w : world) (a : addr) : Prop :=
  exists o, heap w !! a = Some (OReview o).

(** The worlds a program can produce from the empty one by calling the
    constructors and by assigning to the properties of instances.  (The
    assignments to Review instances are included although, as the
    constructor stands, a program never holds one.) *)
Inductive reachable : world -> Prop :=
  | reach_start : reachable empty_world
  | reach_Customer w first last :
      reachable w -> reachable (snd (Customer.init first last w))
  | reach_Restaurant w name :
      reachable w -> reachable (snd (Restaurant.init name w))
  | reach_Review w customer restaurant rating :
      reachable w -> reachable (snd (Review.init customer restaurant rating w))
  | reach_first_name w self value :
      reachable w -> is_customer w self ->
      reachable (snd (Customer.set_first_name self value w))
  | reach_last_name w self value :
      reachable w -> is_customer w self ->
      reachable (snd (Customer.set_last_name self value w))
  | reach_name w self value :
      reachable w -> is_restaurant w self ->
      reachable (snd (Restaurant.set_name self value w))
  | reach_rating w self val :
      reachable w -> is_review w self ->
      reachable (snd (Review.set_rating self val w))
  | reach_customer w self val :
      reachable w -> is_review w self ->
      reachable (snd (Review.set_customer self val w)).

(** A name slot is unset or holds a string of 1 to 25 characters; a rating
    slot is unset or holds an integer from 1 to 5; a customer slot is unset
    or refers to a Customer. *)
Definition name_ok (o : option string) : Prop :=
  match o with
  | Some s => (1 <= String.length s <= 25)%nat
  | None => True
  end.

Definition rating_ok (o : option Z) : Prop :=
  match o with
  | Some k => 1 <= k <= 5
  | None => True
  end.

Definition obj_ok (w : world) (o : obj) : Prop :=
  match o with
  | OCustomer c => name_ok (_first_name c) /\ name_ok (_last_name c)
  | ORestaurant r => name_ok (_name r)
  | OReview v =>
      rating_ok (_rating v) /\
      match _customer v with Some c => is_customer w c | None => True end
  end.

Definition attributes_valid (w : world) : Prop := Forall (obj_ok w) (heap w).

(** The class of an object never changes, and objects are never freed. *)
Inductive class := CCustomer | CRestaurant | CReview.

Definition class_of (o : obj) : class :=
  match o with
  | OCustomer _ => CCustomer
  | ORestaurant _ => CRestaurant
  | OReview _ => CReview
  end.

Definition heap_grows (h h' : list obj) : Prop :=
  forall a o, h !! a = Some o ->
    exists o', h' !! a = Some o' /\ class_of o' = class_of o.

(** The registries list each instance once, and only instances of their
    class. *)
Definition registries_wf (w : world) : Prop :=
  NoDup (Customer_all w) /\ Forall (is_customer w) (Customer_all w) /\
  NoDup (Restaurant_all w) /\ Forall (is_restaurant w) (Restaurant_all w).

(** The invariant kept by every operation. *)
Definition world_inv (w : world) : Prop :=
  attributes_valid w /\ registries_wf w /\ Review_all w = [].

(** The floats 1.0 and 2.0. *)
Definition float_1_0 : spec_float := S754_finite false 4503599627370496 (-52).
Definition float_2_0 : spec_float := S754_finite false 4503599627370496 (-51).

(** The float of the integer [k], for [k] from 1 to 5. *)
Definition float_of_star (k : Z) : spec_float :=
  if k =? 1 then float_1_0
  else if k =? 2 then float_2_0
  else if k =? 3 then float_3_0
  else if k =? 4 then float_4_0
  else float_5_0.

(** ** More sample worlds *)

(** The world after a second restaurant, [Restaurant("Mario's")], at
    address 2. *)
Definition two_restaurants : world :=
  snd (Restaurant.init (VStr "Mario's") ada_and_luigi).

(** A Review at address 2 whose rating was never set. *)
Definition unrated : world :=
  {| heap := heap ada_and_luigi ++
       [OReview {| _customer := Some 0%nat; _restaurant := Some 1%nat;
                   _rating := None |}];
     Customer_all := [0%nat]; Restaurant_all := [1%nat]; Review_all := [2%nat] |}.

(** Two registered Reviews, the second one (address 3) without a
    customer. *)
Definition orphan : world :=
  {| heap := heap ada_and_luigi ++
       [review 0%nat 1%nat 4;
        OReview {| _customer := None; _restaurant := Some 1%nat;
                   _rating := Some 2 |}];
     Customer_all := [0%nat]; Restaurant_all := [1%nat];
     Review_all := [2; 3]%nat |}.

(** * Properties *)

(** ** Heap lemmas *)

Lemma lookup_fresh (h : list obj) (o : obj) :
  (h ++ [o]) !! length h = Some o.
Proof. by rewrite list_lookup_middle. Qed.

Lemma insert_fresh (h : list obj) (o o' : obj) :
  <[length h := o']> (h ++ [o]) = h ++ [o'].
Proof.
  rewrite insert_app_r_alt; [|lia].
  by rewrite Nat.sub_diag.
Qed.

(** ** Constructors *)

(** What [Customer(first_name, last_name)] does, for any two arguments:
    it never raises, each name is stored when it passes the guard and is
    left unassigned otherwise, and the instance is appended to
    [Customer.all]. *)
Lemma Customer_init_eq (w : world) (first last : pyval) :
  Customer.init first last w =
    (Ok (length (heap w)),
     {| heap := heap w ++
          [OCustomer {| _first_name := if valid_name first
                                       then Some (str_value first) else None;
                        _last_name := if valid_name last
                                      then Some (str_value last) else None |}];
        Customer_all := Customer_all w ++ [length (heap w)];
        Restaurant_all := Restaurant_all w;
        Review_all := Review_all w |}).
Proof.
  unfold Customer.init, Customer.set_first_name, Customer.set_last_name,
    Customer.register, Customer.self_obj, alloc, store, get_world, set_heap,
    mbind, M_bind, mret, M_ret.
  cbn [heap Customer_all Restaurant_all Review_all].
  rewrite lookup_fresh.
  destruct (valid_name first); cbn [heap Customer_all Restaurant_all Review_all];
    rewrite ?insert_fresh, ?lookup_fresh;
    destruct (valid_name last); cbn [heap Customer_all Restaurant_all Review_all];
    rewrite ?insert_fresh; reflexivity.
Qed.

Lemma Restaurant_init_eq (w : world) (name : pyval) :
  Restaurant.init name w =
    (Ok (length (heap w)),
     {| heap := heap w ++
          [ORestaurant {| _name := if valid_name name
                                   then Some (str_value name) else None |}];
        Customer_all := Customer_all w;
        Restaurant_all := Restaurant_all w ++ [length (heap w)];
        Review_all := Review_all w |}).
Proof.
  unfold Restaurant.init, Restaurant.set_name, Restaurant.register,
    Restaurant.self_obj, alloc, store, get_world, set_heap,
    mbind, M_bind, mret, M_ret.
  cbn [heap Customer_all Restaurant_all Review_all].
  rewrite lookup_fresh.
  destruct (valid_name name); cbn [heap Customer_all Restaurant_all Review_all];
    rewrite ?insert_fresh; reflexivity.
Qed.

Lemma valid_name_str (s : string) :
  (1 <= String.length s <= 25)%nat -> valid_name (VStr s) = true.
Proof.
  intros [H1 H2]. unfold valid_name.
  apply andb_true_iff; split; apply Z.leb_le; lia.
Qed.

(** C5. For names of length 1 to 25, [Customer(first, last)] and
    [Restaurant(name)] return the new instance, and reading [first_name],
    [last_name] and [name] on it gives back the strings passed in. *)
Theorem valid_names_are_stored (w : world) (first last name : string) :
  (1 <= String.length first <= 25)%nat ->
  (1 <= String.length last <= 25)%nat ->
  (1 <= String.length name <= 25)%nat ->
  (exists self w',
      Customer.init (VStr first) (VStr last) w = (Ok self, w') /\
      Customer.first_name w' self = Ok first /\
      Customer.last_name w' self = Ok last /\
      Customer_all w' = Customer_all w ++ [self]) /\
  (exists self w',
      Restaurant.init (VStr name) w = (Ok self, w') /\
      Restaurant.name w' self = Ok name /\
      Restaurant_all w' = Restaurant_all w ++ [self]).
Proof.
  intros Hf Hl Hn. split.
  - eexists _, _. split; [apply Customer_init_eq|].
    rewrite !valid_name_str by assumption.
    unfold Customer.first_name, Customer.last_name, Customer.self_obj.
    cbn [heap Customer_all]. rewrite lookup_fresh. auto.
  - eexists _, _. split; [apply Restaurant_init_eq|].
    rewrite valid_name_str by assumption.
    unfold Restaurant.name, Restaurant.self_obj.
    cbn [heap Restaurant_all]. rewrite lookup_fresh. auto.
Qed.

Lemma valid_names_are_stored_witness :
  (exists self w',
      Customer.init (VStr "Ada") (VStr "Lovelace") empty_world = (Ok self, w') /\
      Customer.first_name w' self = Ok "Ada"%string /\
      Customer.last_name w' self = Ok "Lovelace"%string /\
      Customer_all w' = Customer_all empty_world ++ [self]) /\
  (exists self w',
      Restaurant.init (VStr "Luigi's") empty_world = (Ok self, w') /\
      Restaurant.name w' self = Ok "Luigi's"%string /\
      Restaurant_all w' = Restaurant_all empty_world ++ [self]).
Proof.
  apply (valid_names_are_stored empty_world "Ada" "Lovelace" "Luigi's");
    simpl; lia.
Defined.

(** C6, as stated, fails: the empty string is not a valid name, yet
    [Customer("", "Doe")] and [Restaurant("")] return an instance and
    register it. *)
Lemma invalid_name_not_rejected :
  valid_name (VStr "") = false /\
  Customer.init (VStr "") (VStr "Doe") empty_world =
    (Ok 0%nat,
     {| heap := [OCustomer {| _first_name := None; _last_name := Some "Doe"%string |}];
        Customer_all := [0%nat]; Restaurant_all := []; Review_all := [] |}) /\
  Restaurant.init (VStr "") empty_world =
    (Ok 0%nat,
     {| heap := [ORestaurant {| _name := None |}];
        Customer_all := []; Restaurant_all := [0%nat]; Review_all := [] |}).
Proof. repeat split; reflexivity. Qed.

(** C6, amended. A name that is not a string, or whose length is outside
    1 to 25, does not make construction fail: the setter skips the
    assignment silently, and the constructor returns the new instance and
    registers it. *)
Theorem invalid_name_constructs (w : world) (bad other : pyval) :
  valid_name bad = false ->
  (exists self w',
      Customer.init bad other w = (Ok self, w') /\
      Customer_all w' = Customer_all w ++ [self]) /\
  (exists self w',
      Customer.init other bad w = (Ok self, w') /\
      Customer_all w' = Customer_all w ++ [self]) /\
  (exists self w',
      Restaurant.init bad w = (Ok self, w') /\
      Restaurant_all w' = Restaurant_all w ++ [self]).
Proof.
  intros _. repeat split; eexists _, _;
    (split; [first [apply Customer_init_eq | apply Restaurant_init_eq]|reflexivity]).
Qed.

Lemma invalid_name_constructs_witness :
  (exists self w',
      Customer.init (VInt 7) (VStr "Doe") empty_world = (Ok self, w') /\
      Customer_all w' = Customer_all empty_world ++ [self]) /\
  (exists self w',
      Customer.init (VStr "Doe") (VInt 7) empty_world = (Ok self, w') /\
      Customer_all w' = Customer_all empty_world ++ [self]) /\
  (exists self w',
      Restaurant.init (VInt 7) empty_world = (Ok self, w') /\
      Restaurant_all w' = Restaurant_all empty_world ++ [self]).
Proof.
  apply (invalid_name_constructs empty_world (VInt 7) (VStr "Doe")).
  reflexivity.
Defined.

(** C10. For an invalid name argument the constructor does not raise and
    appends the instance to the registry, but the attribute is never
    assigned: reading it on the registered instance raises
    [AttributeError]. *)
Theorem invalid_name_leaves_attribute_unset (w : world) (bad other : pyval) :
  valid_name bad = false ->
  (exists self w',
      Customer.init bad other w = (Ok self, w') /\
      Customer_all w' = Customer_all w ++ [self] /\
      Customer.first_name w' self = Raise AttributeError) /\
  (exists self w',
      Customer.init other bad w = (Ok self, w') /\
      Customer_all w' = Customer_all w ++ [self] /\
      Customer.last_name w' self = Raise AttributeError) /\
  (exists self w',
      Restaurant.init bad w = (Ok self, w') /\
      Restaurant_all w' = Restaurant_all w ++ [self] /\
      Restaurant.name w' self = Raise AttributeError).
Proof.
  intros Hbad. repeat split; eexists _, _;
    (split; [first [apply Customer_init_eq | apply Restaurant_init_eq]|]);
    (split; [reflexivity|]);
    unfold Customer.first_name, Customer.last_name, Customer.self_obj,
      Restaurant.name, Restaurant.self_obj;
    cbn [heap]; rewrite lookup_fresh, Hbad; reflexivity.
Qed.

Lemma invalid_name_leaves_attribute_unset_witness :
  (exists self w',
      Customer.init (VStr "") VNone empty_world = (Ok self, w') /\
      Customer_all w' = Customer_all empty_world ++ [self] /\
      Customer.first_name w' self = Raise AttributeError) /\
  (exists self w',
      Customer.init VNone (VStr "") empty_world = (Ok self, w') /\
      Customer_all w' = Customer_all empty_world ++ [self] /\
      Customer.last_name w' self = Raise AttributeError) /\
  (exists self w',
      Restaurant.init (VStr "") empty_world = (Ok self, w') /\
      Restaurant_all w' = Restaurant_all empty_world ++ [self] /\
      Restaurant.name w' self = Raise AttributeError).
Proof.
  apply (invalid_name_leaves_attribute_unset empty_world (VStr "") VNone).
  reflexivity.
Defined.

(** ** Review *)

(** [Review(customer, restaurant, rating)] stops at
    [self.restaurant = restaurant] whatever its arguments are: the
    exception leaves [Review.all] as it was. *)
Lemma Review_init_raises (w : world) (customer restaurant rating : pyval) :
  exists w',
    Review.init customer restaurant rating w = (Raise AttributeError, w') /\
    Review_all w' = Review_all w /\
    Customer_all w' = Customer_all w /\
    Restaurant_all w' = Restaurant_all w.
Proof.
  unfold Review.init, Review.set_customer, Review.set_restaurant,
    Review.self_obj, alloc, store, get_world, set_heap, raise,
    mbind, M_bind, mret, M_ret.
  cbn [heap Customer_all Restaurant_all Review_all].
  rewrite lookup_fresh.
  destruct (isinstance_Customer _ customer);
    cbn [heap Customer_all Restaurant_all Review_all];
    eexists; (split; [reflexivity|]); auto.
Qed.

(** C1 (the code departs from it). With [c] a Customer at address 0, [r] a
    Restaurant at address 1 and the rating 3, [Review(c, r, 3)] does not
    return a Review: it raises [AttributeError] at the assignment to the
    setter-less property [restaurant], and [Review.all] stays empty. *)
Theorem Review_init_valid_rating_raises :
  isinstance_Customer ada_and_luigi (VRef 0%nat) = true /\
  isinstance_Restaurant ada_and_luigi (VRef 1%nat) = true /\
  fst (Review.init (VRef 0%nat) (VRef 1%nat) (VInt 3) ada_and_luigi)
    = Raise AttributeError /\
  Review_all (snd (Review.init (VRef 0%nat) (VRef 1%nat) (VInt 3) ada_and_luigi))
    = [].
Proof. repeat split; reflexivity. Qed.

(** C4. Once a Review has a rating, assigning to [rating] again - with any
    value at all - changes nothing and does not raise: the rating read
    afterwards is the one set first. *)
Theorem rating_is_immutable (w : world) (self : addr) (v : ReviewObj)
    (k : Z) (val : pyval) :
  heap w !! self = Some (OReview v) ->
  _rating v = Some k ->
  Review.set_rating self val w = (Ok tt, w) /\
  Review.rating (snd (Review.set_rating self val w)) self = Ok k.
Proof.
  intros Hself Hk.
  assert (Hset : Review.set_rating self val w = (Ok tt, w)).
  { unfold Review.set_rating, Review.self_obj, get_world, mbind, M_bind.
    rewrite Hself, Hk.
    rewrite (bool_decide_eq_true_2 (is_Some (Some k))) by eauto.
    rewrite andb_false_r. reflexivity. }
  split; [exact Hset|].
  rewrite Hset. unfold Review.rating, Review.self_obj. cbn [snd mbind result_bind].
  rewrite Hself. cbn. rewrite Hk. reflexivity.
Qed.

Lemma rating_is_immutable_witness :
  Review.set_rating 2%nat (VInt 1) one_review = (Ok tt, one_review) /\
  Review.rating (snd (Review.set_rating 2%nat (VInt 1) one_review)) 2%nat = Ok 4.
Proof.
  apply (rating_is_immutable one_review 2%nat
           {| _customer := Some 0%nat; _restaurant := Some 1%nat;
              _rating := Some 4 |} 4 (VInt 1)); reflexivity.
Defined.

(** ** Queries over [Review.all] *)

Lemma Review_customer_of (w : world) (a : addr) (c : addr) :
  customer_of w a = Some c -> Review.customer w a = Ok c.
Proof.
  unfold customer_of, Review.customer, Review.self_obj.
  destruct (heap w !! a) as [[| |v]|]; try discriminate.
  cbn. intros ->. reflexivity.
Qed.

Lemma Review_restaurant_of (w : world) (a : addr) (r : addr) :
  restaurant_of w a = Some r -> Review.restaurant w a = Ok r.
Proof.
  unfold restaurant_of, Review.restaurant, Review.self_obj.
  destruct (heap w !! a) as [[| |v]|]; try discriminate.
  cbn. intros ->. reflexivity.
Qed.

Lemma Review_rating_of (w : world) (a : addr) (k : Z) :
  rating_of w a = Some k -> Review.rating w a = Ok k.
Proof.
  unfold rating_of, Review.rating, Review.self_obj.
  destruct (heap w !! a) as [[| |v]|]; try discriminate.
  cbn. intros ->. reflexivity.
Qed.

(** A comprehension whose condition never raises is a filter. *)
Lemma filterR_filter {A} (p : A -> result bool) (P : A -> Prop)
    `{!forall x, Decision (P x)} (l : list A) :
  Forall (fun x => p x = Ok (bool_decide (P x))) l ->
  filterR p l = Ok (filter P l).
Proof.
  induction 1 as [|x l Hx _ IH]; [reflexivity|].
  cbn [filterR]. rewrite Hx, IH. cbn [mbind result_bind].
  rewrite filter_cons. destruct (decide (P x)) as [HP|HP].
  - by rewrite bool_decide_eq_true_2.
  - by rewrite bool_decide_eq_false_2.
Qed.

Lemma mapR_map {A B} (f : A -> result B) (g : A -> B) (l : list A) :
  Forall (fun x => f x = Ok (g x)) l ->
  mapR f l = Ok (g <$> l).
Proof.
  induction 1 as [|x l Hx _ IH]; [reflexivity|].
  cbn [mapR]. rewrite Hx, IH. reflexivity.
Qed.

Lemma Customer_reviews_eq (w : world) (self : addr) :
  reviews_complete w ->
  Customer_reviews w self =
    Ok (filter (fun a => customer_of w a = Some self) (Review_all w)).
Proof.
  intros Hw. apply filterR_filter.
  eapply Forall_impl; [exact Hw|].
  intros a ([c Hc] & _ & _). rewrite (Review_customer_of _ _ _ Hc), Hc. cbn.
  f_equal. apply bool_decide_ext. split; congruence.
Qed.

Lemma Restaurant_reviews_eq (w : world) (self : addr) :
  reviews_complete w ->
  Restaurant_reviews w self =
    Ok (filter (fun a => restaurant_of w a = Some self) (Review_all w)).
Proof.
  intros Hw. apply filterR_filter.
  eapply Forall_impl; [exact Hw|].
  intros a (_ & [r Hr] & _). rewrite (Review_restaurant_of _ _ _ Hr), Hr. cbn.
  f_equal. apply bool_decide_ext. split; congruence.
Qed.

(** C8. [reviews()] of a Customer (of a Restaurant) is the sub-sequence of
    [Review.all], in registry order, of the Reviews whose customer
    (restaurant) is that very object: nothing else is in it and none of
    them is left out. *)
Theorem reviews_are_the_registry_filtered (w : world) (self : addr) :
  reviews_complete w ->
  (Customer_reviews w self =
     Ok (filter (fun a => customer_of w a = Some self) (Review_all w)) /\
   exists l, Customer_reviews w self = Ok l /\
     sublist l (Review_all w) /\
     forall a, a ∈ l <-> a ∈ Review_all w /\ customer_of w a = Some self) /\
  (Restaurant_reviews w self =
     Ok (filter (fun a => restaurant_of w a = Some self) (Review_all w)) /\
   exists l, Restaurant_reviews w self = Ok l /\
     sublist l (Review_all w) /\
     forall a, a ∈ l <-> a ∈ Review_all w /\ restaurant_of w a = Some self).
Proof.
  intros Hw. split.
  - pose proof (Customer_reviews_eq w self Hw) as E. split; [exact E|].
    eexists. split; [exact E|]. split; [apply sublist_filter|].
    intros a. rewrite list_elem_of_filter. tauto.
  - pose proof (Restaurant_reviews_eq w self Hw) as E. split; [exact E|].
    eexists. split; [exact E|]. split; [apply sublist_filter|].
    intros a. rewrite list_elem_of_filter. tauto.
Qed.

Lemma complete_filter (w : world) (P : addr -> Prop)
    `{!forall x, Decision (P x)} :
  reviews_complete w -> Forall (complete_review w) (filter P (Review_all w)).
Proof.
  intros Hw. apply Forall_forall. intros a Ha.
  apply list_elem_of_filter in Ha as [_ Ha].
  exact (proj1 (Forall_forall _ _) Hw a Ha).
Qed.

Lemma mapR_restaurant (w : world) (l : list addr) :
  Forall (complete_review w) l ->
  mapR (Review.restaurant w) l = Ok ((fun a => default O (restaurant_of w a)) <$> l).
Proof.
  intros Hl. apply mapR_map. eapply Forall_impl; [exact Hl|].
  intros a (_ & [r Hr] & _). rewrite Hr. by apply Review_restaurant_of.
Qed.

Lemma mapR_customer (w : world) (l : list addr) :
  Forall (complete_review w) l ->
  mapR (Review.customer w) l = Ok ((fun a => default O (customer_of w a)) <$> l).
Proof.
  intros Hl. apply mapR_map. eapply Forall_impl; [exact Hl|].
  intros a ([c Hc] & _ & _). rewrite Hc. by apply Review_customer_of.
Qed.

Lemma mapR_rating (w : world) (l : list addr) :
  Forall (complete_review w) l ->
  mapR (Review.rating w) l = Ok ((fun a => default 0 (rating_of w a)) <$> l).
Proof.
  intros Hl. apply mapR_map. eapply Forall_impl; [exact Hl|].
  intros a (_ & _ & [k Hk]). rewrite Hk. by apply Review_rating_of.
Qed.

Lemma list_of_set_spec (l : list addr) :
  NoDup (list_of_set l) /\ forall x, x ∈ list_of_set l <-> x ∈ l.
Proof.
  unfold list_of_set. split; [apply NoDup_elements|].
  intros x. rewrite elem_of_elements, elem_of_list_to_set. tauto.
Qed.

(** C9. [restaurants()] of a Customer holds every Restaurant that one of the
    Customer's reviews refers to, each exactly once, and nothing else; the
    same for [customers()] of a Restaurant.  Several Reviews of one pair
    give one entry. *)
Theorem distinct_restaurants_and_customers (w : world) (self : addr) :
  reviews_complete w ->
  (exists l, Customer_restaurants w self = Ok l /\ NoDup l /\
     forall r, r ∈ l <->
       exists a, a ∈ Review_all w /\ customer_of w a = Some self /\
                 restaurant_of w a = Some r) /\
  (exists l, Restaurant_customers w self = Ok l /\ NoDup l /\
     forall c, c ∈ l <->
       exists a, a ∈ Review_all w /\ restaurant_of w a = Some self /\
                 customer_of w a = Some c).
Proof.
  intros Hw. split.
  - unfold Customer_restaurants.
    rewrite (Customer_reviews_eq w self Hw). cbn [mbind result_bind].
    rewrite mapR_restaurant by (by apply complete_filter). cbn [mbind result_bind].
    eexists. split; [reflexivity|].
    destruct (list_of_set_spec
      ((fun a => default O (restaurant_of w a)) <$>
         filter (fun a => customer_of w a = Some self) (Review_all w)))
      as [Hnd Hin].
    split; [exact Hnd|]. intros r. rewrite Hin, list_elem_of_fmap.
    split.
    + intros (a & -> & Ha). apply list_elem_of_filter in Ha as [Hc Ha].
      exists a. repeat split; try assumption.
      destruct (proj1 (Forall_forall _ _) Hw a Ha) as (_ & [r Hr] & _).
      by rewrite Hr.
    + intros (a & Ha & Hc & Hr). exists a. split; [by rewrite Hr|].
      by apply list_elem_of_filter.
  - unfold Restaurant_customers.
    rewrite (Restaurant_reviews_eq w self Hw). cbn [mbind result_bind].
    rewrite mapR_customer by (by apply complete_filter). cbn [mbind result_bind].
    eexists. split; [reflexivity|].
    destruct (list_of_set_spec
      ((fun a => default O (customer_of w a)) <$>
         filter (fun a => restaurant_of w a = Some self) (Review_all w)))
      as [Hnd Hin].
    split; [exact Hnd|]. intros c. rewrite Hin, list_elem_of_fmap.
    split.
    + intros (a & -> & Ha). apply list_elem_of_filter in Ha as [Hr Ha].
      exists a. repeat split; try assumption.
      destruct (proj1 (Forall_forall _ _) Hw a Ha) as ([c Hc] & _ & _).
      by rewrite Hc.
    + intros (a & Ha & Hr & Hc). exists a. split; [by rewrite Hc|].
      by apply list_elem_of_filter.
Qed.

(** The condition of a comprehension may read an attribute first: the
    elements kept are as many as the attribute values that pass. *)
Lemma filterR_count {A B} (f : A -> result B) (g : B -> bool)
    (l : list A) (ys : list B) :
  mapR f l = Ok ys ->
  exists kept, filterR (fun x => y ← f x; Ok (g y)) l = Ok kept /\
               length kept = length (List.filter g ys).
Proof.
  revert ys. induction l as [|x l IH]; intros ys H.
  - injection H as <-. by exists [].
  - cbn [mapR] in H. destruct (f x) as [y|e] eqn:Hx; [|discriminate].
    cbn [mbind result_bind] in H.
    destruct (mapR f l) as [ys'|e] eqn:Hl; [|discriminate].
    injection H as <-. destruct (IH ys' eq_refl) as (kept & Hk & Hlen).
    cbn [filterR]. rewrite Hx. cbn [mbind result_bind]. rewrite Hk.
    cbn [mbind result_bind List.filter].
    destruct (g y); eexists; (split; [reflexivity|]); cbn [length]; lia.
Qed.

(** C7. [num_negative_reviews()] of a Customer is the number of Reviews in
    [Review.all] that refer to this Customer and are rated at most 2; when
    the Customer's reviews are rated 1, 2, 3 and 5 it is 2. *)
Theorem num_negative_reviews_counts (w : world) (self : addr) :
  reviews_complete w ->
  Customer_num_negative_reviews w self =
    Ok (Z.of_nat (length
          (filter (fun a => customer_of w a = Some self /\ rating_at_most w 2 a)
                  (Review_all w)))) /\
  (forall rs, Customer_reviews w self = Ok rs ->
     mapR (Review.rating w) rs = Ok [1; 2; 3; 5] ->
     Customer_num_negative_reviews w self = Ok 2).
Proof.
  intros Hw. split.
  - unfold Customer_num_negative_reviews.
    rewrite (Customer_reviews_eq w self Hw). cbn [mbind result_bind].
    rewrite (filterR_filter _ (rating_at_most w 2)).
    + cbn [mbind result_bind]. rewrite list_filter_filter.
      do 3 f_equal. apply list_filter_iff. intros a. tauto.
    + eapply Forall_impl; [apply complete_filter, Hw|].
      intros a (_ & _ & [k Hk]). rewrite (Review_rating_of _ _ _ Hk).
      cbn [mbind result_bind]. f_equal. unfold rating_at_most.
      apply eq_true_iff_eq. rewrite bool_decide_eq_true, Hk.
      apply Z.leb_le.
  - intros rs Hrs Hks. unfold Customer_num_negative_reviews.
    rewrite Hrs. cbn [mbind result_bind].
    destruct (filterR_count (Review.rating w) (fun k => k <=? 2) rs _ Hks)
      as (kept & -> & Hlen).
    cbn [mbind result_bind]. rewrite Hlen. reflexivity.
Qed.

(** ** The stable sort *)

Section SortedProps.
Context {K A : Type} (lt : K -> K -> bool) (ok : K -> Prop).

(** [lt] is a strict weak order on the keys that occur. *)
Hypothesis lt_asym : forall a b, ok a -> ok b -> lt a b = true -> lt b a = false.
Hypothesis lt_neg_trans : forall a b c, ok a -> ok b -> ok c ->
  lt a b = false -> lt b c = false -> lt a c = false.

Lemma insert_by_key_perm (x : K * A) (l : list (K * A)) :
  insert_by_key lt x l ≡ₚ x :: l.
Proof.
  induction l as [|y l IH]; [reflexivity|].
  cbn [insert_by_key]. destruct (lt (fst y) (fst x)); [|reflexivity].
  rewrite IH. apply Permutation_swap.
Qed.

Lemma stable_sort_perm (l : list (K * A)) : stable_sort lt l ≡ₚ l.
Proof.
  induction l as [|x l IH]; [reflexivity|].
  cbn [stable_sort]. rewrite insert_by_key_perm. by rewrite IH.
Qed.

Lemma sorted_reverse_perm (l : list (K * A)) : sorted_reverse lt l ≡ₚ l.
Proof.
  unfold sorted_reverse.
  by rewrite reverse_Permutation, stable_sort_perm, reverse_Permutation.
Qed.

Lemma insert_by_key_sorted (x : K * A) (l : list (K * A)) :
  ok (fst x) -> Forall (fun p => ok (fst p)) l ->
  StronglySorted (ascending lt) l ->
  StronglySorted (ascending lt) (insert_by_key lt x l).
Proof.
  intros Hx Hok Hs. induction Hs as [|y l Hs IH Hy].
  - repeat constructor.
  - apply Forall_cons in Hok as [Hoky Hok].
    cbn [insert_by_key]. destruct (lt (fst y) (fst x)) eqn:E.
    + constructor; [by apply IH|].
      rewrite insert_by_key_perm. constructor; [|exact Hy].
      unfold ascending. by apply lt_asym.
    + constructor; [by constructor|].
      constructor; [exact E|].
      apply Forall_forall. intros z Hz. unfold ascending.
      apply (lt_neg_trans _ (fst y)); try assumption.
      * exact (proj1 (Forall_forall _ _) Hok z Hz).
      * exact (proj1 (Forall_forall _ _) Hy z Hz).
Qed.

Lemma stable_sort_sorted (l : list (K * A)) :
  Forall (fun p => ok (fst p)) l ->
  StronglySorted (ascending lt) (stable_sort lt l).
Proof.
  induction 1 as [|x l Hx Hok IH]; [constructor|].
  cbn [stable_sort]. apply insert_by_key_sorted; try assumption.
  by rewrite stable_sort_perm.
Qed.

Lemma StronglySorted_reverse (R : relation (K * A)) (l : list (K * A)) :
  StronglySorted R l -> StronglySorted (flip R) (reverse l).
Proof.
  induction 1 as [|x l Hs IH Hx]; [constructor|].
  rewrite reverse_cons. apply StronglySorted_app_2;
    [|exact IH|repeat constructor].
  intros y z Hy Hz. apply list_elem_of_singleton in Hz as ->.
  rewrite elem_of_reverse in Hy.
  exact (proj1 (Forall_forall _ _) Hx y Hy).
Qed.

Lemma sorted_reverse_sorted (l : list (K * A)) :
  Forall (fun p => ok (fst p)) l ->
  StronglySorted (descending lt) (sorted_reverse lt l).
Proof.
  intros Hok. unfold sorted_reverse.
  apply (StronglySorted_reverse (ascending lt)), stable_sort_sorted.
  by rewrite reverse_Permutation.
Qed.

(** Stability: the elements with a given key keep their order. *)
Lemma insert_by_key_stable (k : K) (x : K * A) (l : list (K * A)) :
  ok k -> ok (fst x) -> Forall (fun p => ok (fst p)) l ->
  filter (same_key lt k) (insert_by_key lt x l) = filter (same_key lt k) (x :: l).
Proof.
  intros Hk Hx Hok. induction Hok as [|y l Hy Hok IH]; [reflexivity|].
  cbn [insert_by_key]. destruct (lt (fst y) (fst x)) eqn:E; [|reflexivity].
  rewrite filter_cons, IH, !filter_cons.
  destruct (decide (same_key lt k y)) as [[Hky Hyk]|_]; [|reflexivity].
  destruct (decide (same_key lt k x)) as [[Hkx Hxk]|_]; [|reflexivity].
  rewrite (lt_neg_trans (fst y) k (fst x)) in E by assumption.
  discriminate.
Qed.

Lemma stable_sort_stable (k : K) (l : list (K * A)) :
  ok k -> Forall (fun p => ok (fst p)) l ->
  filter (same_key lt k) (stable_sort lt l) = filter (same_key lt k) l.
Proof.
  intros Hk. induction 1 as [|x l Hx Hok IH]; [reflexivity|].
  cbn [stable_sort]. rewrite insert_by_key_stable; try assumption.
  - by rewrite !filter_cons, IH.
  - by rewrite stable_sort_perm.
Qed.

Lemma sorted_reverse_stable (k : K) (l : list (K * A)) :
  ok k -> Forall (fun p => ok (fst p)) l ->
  filter (same_key lt k) (sorted_reverse lt l) = filter (same_key lt k) l.
Proof.
  intros Hk Hok. unfold sorted_reverse.
  rewrite filter_reverse, stable_sort_stable; try assumption.
  - by rewrite filter_reverse, reverse_involutive.
  - by rewrite reverse_Permutation.
Qed.
End SortedProps.

(** Sorting a list by a key function: [sorted(l, key=key, reverse=True)]. *)
Section SortedByKey.
Context {K A : Type} (lt : K -> K -> bool) (ok : K -> Prop) (key : A -> K).

Hypothesis lt_asym : forall a b, ok a -> ok b -> lt a b = true -> lt b a = false.
Hypothesis lt_neg_trans : forall a b c, ok a -> ok b -> ok c ->
  lt a b = false -> lt b c = false -> lt a c = false.

Lemma keyed_sorted (l : list (K * A)) :
  Forall (keyed key) l -> StronglySorted (descending lt) l ->
  StronglySorted (not_below lt key) (snd <$> l).
Proof.
  intros Hk Hs. induction Hs as [|p l Hs IH Hp]; [constructor|].
  apply Forall_cons in Hk as [Hkp Hk]. csimpl. constructor; [by apply IH|].
  rewrite Forall_fmap. apply Forall_forall. intros q Hq.
  pose proof (proj1 (Forall_forall _ _) Hp q Hq) as Hd.
  pose proof (proj1 (Forall_forall _ _) Hk q Hq) as Hkq.
  unfold not_below, descending, keyed in *. cbn. by rewrite <- Hkp, <- Hkq.
Qed.

Lemma keyed_filter (k : K) (l : list (K * A)) :
  Forall (keyed key) l ->
  filter (key_equal lt key k) (snd <$> l) = snd <$> filter (same_key lt k) l.
Proof.
  induction 1 as [|p l Hp Hl IH]; [reflexivity|].
  csimpl. rewrite !filter_cons, IH.
  unfold key_equal, same_key, keyed in *.
  destruct (decide _) as [H1|H1], (decide _) as [H2|H2];
    try reflexivity; rewrite Hp in *; tauto.
Qed.

Lemma sorted_reverse_by_key (l : list A) :
  Forall (fun a => ok (key a)) l ->
  snd <$> sorted_reverse lt (with_key key <$> l) ≡ₚ l /\
  StronglySorted (not_below lt key) (snd <$> sorted_reverse lt (with_key key <$> l)) /\
  forall k, ok k ->
    filter (key_equal lt key k) (snd <$> sorted_reverse lt (with_key key <$> l))
    = filter (key_equal lt key k) l.
Proof.
  intros Hok.
  assert (Hid : snd <$> (with_key key <$> l) = l).
  { rewrite <- list_fmap_compose. apply list_fmap_id. }
  assert (Hk0 : Forall (keyed key) (with_key key <$> l)).
  { rewrite Forall_fmap. by apply Forall_true. }
  assert (Hk : Forall (keyed key) (sorted_reverse lt (with_key key <$> l))).
  { by rewrite sorted_reverse_perm. }
  assert (Hok' : Forall (fun p => ok (fst p)) (with_key key <$> l)).
  { by rewrite Forall_fmap. }
  split; [|split].
  - by rewrite sorted_reverse_perm, Hid.
  - apply keyed_sorted; [exact Hk|].
    by apply (sorted_reverse_sorted lt ok).
  - intros k Hkok.
    rewrite keyed_filter by exact Hk.
    rewrite (sorted_reverse_stable lt ok) by assumption.
    by rewrite <- keyed_filter, Hid.
Qed.
End SortedByKey.

(** ** The order of floats *)

Ltac float_cases :=
  repeat match goal with
  | |- context [Pos.compare_cont Eq ?a ?b] =>
      change (Pos.compare_cont Eq a b) with (Pos.compare a b)
  | H : context [Pos.compare_cont Eq ?a ?b] |- _ =>
      change (Pos.compare_cont Eq a b) with (Pos.compare a b) in H
  end;
  repeat match goal with
  | H : context [Z.compare ?a ?b] |- _ => destruct (Z.compare_spec a b)
  | |- context [Z.compare ?a ?b] => destruct (Z.compare_spec a b)
  | H : context [Pos.compare ?a ?b] |- _ => destruct (Pos.compare_spec a b)
  | |- context [Pos.compare ?a ?b] => destruct (Pos.compare_spec a b)
  end;
  cbn in *; try reflexivity; try discriminate; try lia.

Lemma float_lt_asym (x y : spec_float) :
  not_nan x -> not_nan y -> float_lt x y = true -> float_lt y x = false.
Proof.
  unfold float_lt, SFltb, SFcompare. intros _ _.
  destruct x as [[]|[]| |[] mx ex], y as [[]|[]| |[] my ey];
    cbn; try reflexivity; try discriminate; float_cases.
Qed.

Lemma float_lt_neg_trans (x y z : spec_float) :
  not_nan x -> not_nan y -> not_nan z ->
  float_lt x y = false -> float_lt y z = false -> float_lt x z = false.
Proof.
  unfold not_nan, float_lt, SFltb, SFcompare. intros Hx Hy Hz.
  destruct x as [[]|[]| |[] mx ex], y as [[]|[]| |[] my ey],
           z as [[]|[]| |[] mz ez];
    try contradiction; cbn; try reflexivity; try discriminate; float_cases.
Qed.

Lemma py_truediv_not_nan (a b : Z) (f : spec_float) :
  py_truediv a b = Ok f -> not_nan f.
Proof.
  unfold py_truediv, not_nan.
  destruct (b =? 0); [discriminate|].
  destruct (a =? 0); [congruence|].
  destruct (SFdiv _ _ _ _); congruence.
Qed.

Lemma py_round1_not_nan (x f : spec_float) :
  not_nan x -> py_round1 x = Ok f -> not_nan f.
Proof.
  unfold py_round1, float_of_tenths, not_nan. intros Hx.
  destruct x as [s|s| |s m e]; try congruence.
  destruct (0 <=? e); [congruence|].
  destruct (_ =? 0); [congruence|].
  destruct (SFdiv _ _ _ _); congruence.
Qed.

Lemma average_not_nan (w : world) (r : addr) (k : spec_float) :
  Restaurant_average_star_rating w r = Ok k -> not_nan k.
Proof.
  unfold Restaurant_average_star_rating.
  destruct (Restaurant_reviews w r) as [rs|]; [|discriminate].
  cbn [mbind result_bind].
  destruct (mapR _ rs) as [[|k0 ks]|]; cbn [mbind result_bind];
    [unfold not_nan; congruence| |discriminate].
  destruct (py_truediv _ _) as [x|] eqn:Hx; [|discriminate].
  cbn [mbind result_bind]. apply py_round1_not_nan.
  by apply py_truediv_not_nan in Hx.
Qed.

(** ** [top_two_restaurants] *)

Lemma top_two_keys (w : world) :
  Forall (fun r => is_restaurant w r /\
                   exists k, Restaurant_average_star_rating w r = Ok k)
         (Restaurant_all w) ->
  Restaurant_top_two_restaurants w =
    Ok (take 2 (snd <$> sorted_reverse float_lt
                  (with_key (average_of w) <$> Restaurant_all w))).
Proof.
  intros H. unfold Restaurant_top_two_restaurants.
  rewrite (mapR_map _ (with_key (average_of w))); [reflexivity|].
  eapply Forall_impl; [exact H|].
  intros r [[o Ho] [k Hk]]. unfold Restaurant.self_obj, with_key, average_of.
  rewrite Ho, Hk. reflexivity.
Qed.

(** C3. [top_two_restaurants()] returns the first two elements (all of
    them when there are fewer) of a rearrangement of [Restaurant.all] in
    which no restaurant is followed by one with a greater average and in
    which restaurants of equal average keep their registry order.  With
    [Restaurant.all = [A; B; C]] and averages 4.5, 3.0 and 5.0 the result
    is [[C; A]]. *)
Theorem top_two_is_stable_descending (w : world) :
  Forall (fun r => is_restaurant w r /\
                   exists k, Restaurant_average_star_rating w r = Ok k)
         (Restaurant_all w) ->
  (exists L,
      Restaurant_top_two_restaurants w = Ok (take 2 L) /\
      length (take 2 L) = Nat.min 2 (length (Restaurant_all w)) /\
      L ≡ₚ Restaurant_all w /\
      StronglySorted (not_below float_lt (average_of w)) L /\
      forall k, not_nan k ->
        filter (key_equal float_lt (average_of w) k) L
        = filter (key_equal float_lt (average_of w) k) (Restaurant_all w)) /\
  (forall a b c,
      Restaurant_all w = [a; b; c] ->
      Restaurant_average_star_rating w a = Ok float_4_5 ->
      Restaurant_average_star_rating w b = Ok float_3_0 ->
      Restaurant_average_star_rating w c = Ok float_5_0 ->
      Restaurant_top_two_restaurants w = Ok [c; a]).
Proof.
  intros H. pose proof (top_two_keys w H) as Htop. split.
  - destruct (sorted_reverse_by_key float_lt not_nan (average_of w)
                float_lt_asym float_lt_neg_trans (Restaurant_all w))
      as (Hperm & Hsorted & Hstable).
    { eapply Forall_impl; [exact H|]. intros r [_ [k Hk]].
      unfold average_of. rewrite Hk. by apply average_not_nan in Hk. }
    eexists. split; [exact Htop|].
    split; [by rewrite length_take, Hperm|].
    split; [exact Hperm|]. split; [exact Hsorted|exact Hstable].
  - intros a b c Hall Ha Hb Hc. rewrite Htop, Hall.
    unfold sorted_reverse, with_key, average_of.
    cbn [fmap list_fmap]. rewrite Ha, Hb, Hc. reflexivity.
Qed.

Lemma bistro_complete : reviews_complete bistro.
Proof. repeat constructor; by eexists. Qed.

Lemma critic_complete : reviews_complete critic.
Proof. repeat constructor; by eexists. Qed.

Lemma reviews_are_the_registry_filtered_witness :
  reviews_complete bistro /\
  Customer_reviews bistro 0%nat = Ok [5; 6; 8]%nat /\
  Restaurant_reviews bistro 2%nat = Ok [5; 6]%nat.
Proof.
  split; [exact bistro_complete|]. split.
  - destruct (reviews_are_the_registry_filtered bistro 0%nat bistro_complete)
      as [[E _] _].
    rewrite E. reflexivity.
  - destruct (reviews_are_the_registry_filtered bistro 2%nat bistro_complete)
      as [_ [E _]].
    rewrite E. reflexivity.
Defined.

Lemma distinct_restaurants_and_customers_witness :
  reviews_complete bistro /\
  (exists l, Customer_restaurants bistro 0%nat = Ok l /\ NoDup l /\
     length l = 2%nat /\ 2%nat ∈ l /\ 4%nat ∈ l) /\
  (exists l, Restaurant_customers bistro 2%nat = Ok l /\ NoDup l /\
     length l = 1%nat /\ 0%nat ∈ l).
Proof.
  split; [exact bistro_complete|]. split.
  - destruct (distinct_restaurants_and_customers bistro 0%nat bistro_complete)
      as [(l & E & Hnd & Hin) _].
    exists l. split; [exact E|]. split; [exact Hnd|].
    split; [|split].
    + vm_compute in E. by injection E as <-.
    + apply Hin. exists 5%nat. repeat split. repeat constructor.
    + apply Hin. exists 8%nat. repeat split. repeat constructor.
  - destruct (distinct_restaurants_and_customers bistro 2%nat bistro_complete)
      as [_ (l & E & Hnd & Hin)].
    exists l. split; [exact E|]. split; [exact Hnd|]. split.
    + vm_compute in E. by injection E as <-.
    + apply Hin. exists 5%nat. repeat split. repeat constructor.
Defined.

Lemma num_negative_reviews_counts_witness :
  reviews_complete critic /\
  Customer_num_negative_reviews critic 0%nat = Ok 2.
Proof.
  split; [exact critic_complete|].
  destruct (num_negative_reviews_counts critic 0%nat critic_complete) as [E _].
  rewrite E. reflexivity.
Defined.

Lemma top_two_is_stable_descending_witness :
  Restaurant_all bistro = [2; 3; 4]%nat /\
  Restaurant_top_two_restaurants bistro = Ok [4; 2]%nat.
Proof.
  split; [reflexivity|].
  assert (H : Forall (fun r => is_restaurant bistro r /\
                 exists k, Restaurant_average_star_rating bistro r = Ok k)
                     (Restaurant_all bistro)).
  { repeat constructor; try (by eexists); eexists; vm_compute; reflexivity. }
  destruct (top_two_is_stable_descending bistro H) as [_ E].
  apply (E 2 3 4)%nat; vm_compute; reflexivity.
Defined.

(** ** Float division and rounding *)

Lemma digits2_pos_bounds (p : positive) :
  2 ^ (Zpos (digits2_pos p) - 1) <= Zpos p < 2 ^ Zpos (digits2_pos p).
Proof.
  induction p as [p IH|p IH|]; cbn [digits2_pos]; rewrite ?Pos2Z.inj_succ.
  - rewrite (Pos2Z.inj_xI p).
    replace (Z.succ (Z.pos (digits2_pos p)) - 1) with (Z.succ (Z.pos (digits2_pos p) - 1)) by lia.
    rewrite !Z.pow_succ_r by lia. lia.
  - rewrite (Pos2Z.inj_xO p).
    replace (Z.succ (Z.pos (digits2_pos p)) - 1) with (Z.succ (Z.pos (digits2_pos p) - 1)) by lia.
    rewrite !Z.pow_succ_r by lia. lia.
  - cbn. lia.
Qed.

(** A positive integer below [2 ^ d] and at least [2 ^ (d - 1)] has [d] digits. *)
Lemma Zdigits2_unique (m d : Z) :
  0 < d -> 2 ^ (d - 1) <= m < 2 ^ d -> Zdigits2 m = d.
Proof.
  intros Hd Hm. destruct m as [|p|p].
  - pose proof (Z.pow_pos_nonneg 2 (d - 1)). lia.
  - cbn [Zdigits2]. pose proof (digits2_pos_bounds p) as Hp.
    destruct (Z.lt_trichotomy (Zpos (digits2_pos p)) d) as [Hlt|[Heq|Hgt]]; [|exact Heq|].
    + assert (2 ^ Zpos (digits2_pos p) <= 2 ^ (d - 1)) by (apply Z.pow_le_mono_r; lia). lia.
    + assert (2 ^ d <= 2 ^ (Zpos (digits2_pos p) - 1)) by (apply Z.pow_le_mono_r; lia). lia.
  - pose proof (Z.pow_pos_nonneg 2 (d - 1)). lia.
Qed.

Lemma new_location_spec (n r : Z) :
  0 < n -> 0 <= r < n ->
  new_location n r = if r =? 0 then loc_Exact else loc_Inexact (2 * r ?= n).
Proof.
  intros Hn Hr. unfold new_location, new_location_even, new_location_odd.
  destruct (Z.even n) eqn:He; destruct (r =? 0) eqn:Hr0; try reflexivity.
  f_equal.
  assert (Hodd : Z.odd n = true) by (rewrite <- Z.negb_even, He; reflexivity).
  apply Z.odd_spec in Hodd as [k Hk].
  destruct (Z.compare_spec (2 * r + 1) n), (Z.compare_spec (2 * r) n); try reflexivity; lia.
Qed.

Lemma shr_fexp_53 (m e : Z) (l : location) :
  2 ^ 52 <= m < 2 ^ 53 -> -1074 <= e ->
  shr_fexp prec emax m e l = (shr_record_of_loc m l, e).
Proof.
  intros Hm He. unfold shr_fexp.
  rewrite (Zdigits2_unique m 53) by (change (53 - 1) with 52; lia).
  unfold fexp, emin, prec, emax.
  replace (Z.max (53 + e - 53) (3 - 1024 - 53) - e) with 0 by lia.
  reflexivity.
Qed.

Lemma shr_fexp_54 (m e : Z) (l : location) :
  2 ^ 53 <= m < 2 ^ 54 -> -1075 <= e ->
  shr_fexp prec emax m e l = (shr_1 (shr_record_of_loc m l), e + 1).
Proof.
  intros Hm He. unfold shr_fexp.
  rewrite (Zdigits2_unique m 54) by (change (54 - 1) with 53; lia).
  unfold fexp, emin, prec, emax.
  replace (Z.max (54 + e - 53) (3 - 1024 - 53) - e) with 1 by lia.
  reflexivity.
Qed.

Lemma shr_1_nonneg (m : Z) (r s : bool) :
  0 <= m ->
  shr_1 {| shr_m := m; shr_r := r; shr_s := s |} =
    {| shr_m := m / 2; shr_r := Z.odd m; shr_s := r || s |}.
Proof.
  intros Hm. destruct m as [|[p|p|]|p]; try lia; cbn [shr_1 Z.odd].
  - reflexivity.
  - f_equal. rewrite (Pos2Z.inj_xI p). apply (Z.div_unique _ _ _ 1); lia.
  - f_equal. rewrite (Pos2Z.inj_xO p). apply (Z.div_unique _ _ _ 0); lia.
  - reflexivity.
Qed.

(** The last step of [binary_round_aux]: a mantissa that rounding has
    carried to [2 ^ 53] is brought back to 53 bits. *)
Lemma binary_round_finish (sx : bool) (m1 e1 : Z) :
  2 ^ 52 <= m1 <= 2 ^ 53 -> -1074 <= e1 <= 970 ->
  exists m2 e2,
    (let '(mrs, e) := shr_fexp prec emax m1 e1 loc_Exact in
     match shr_m mrs with
     | Z0 => S754_zero sx
     | Zpos m => if e <=? emax - prec then S754_finite sx m e else S754_infinity sx
     | _ => S754_nan
     end) = S754_finite sx m2 e2 /\
    2 ^ 52 <= Zpos m2 < 2 ^ 53 /\
    ((e2 = e1 /\ Zpos m2 = m1) \/ (e2 = e1 + 1 /\ 2 * Zpos m2 = m1)).
Proof.
  intros Hm He.
  destruct (Z.eq_dec m1 (2 ^ 53)) as [->|Hne].
  - rewrite shr_fexp_54 by lia.
    exists (Z.to_pos (2 ^ 52)), (e1 + 1).
    cbn [shr_record_of_loc]. rewrite shr_1_nonneg by lia.
    cbn [shr_m]. change (2 ^ 53 / 2) with (Zpos (Z.to_pos (2 ^ 52))).
    unfold emax, prec. replace (e1 + 1 <=? 1024 - 53) with true
      by (symmetry; apply Z.leb_le; lia).
    split; [reflexivity|]. split; [rewrite Z2Pos.id; lia|].
    right. split; [reflexivity|]. rewrite Z2Pos.id by lia.
    change (2 ^ 53) with (2 * 2 ^ 52). reflexivity.
  - rewrite shr_fexp_53 by lia.
    destruct m1 as [|p|p]; try lia.
    exists p, e1. cbn [shr_record_of_loc shr_m].
    unfold emax, prec. replace (e1 <=? 1024 - 53) with true
      by (symmetry; apply Z.leb_le; lia).
    split; [reflexivity|]. split; [lia|]. left. auto.
Qed.

Lemma shr_record_of_loc_m (m : Z) (l : location) :
  shr_m (shr_record_of_loc m l) = m.
Proof. destruct l as [|[]]; reflexivity. Qed.

Lemma loc_of_shr_record_of_loc (m : Z) (l : location) :
  loc_of_shr_record (shr_record_of_loc m l) = l.
Proof. destruct l as [|[]]; reflexivity. Qed.

(** Rounding the quotient [q], remainder [r], of [M] by [n] to the nearest
    integer. *)
Lemma round_nearest_even_quotient (M n q r : Z) :
  0 < n -> M = q * n + r -> 0 <= r < n ->
  let m1 := round_nearest_even q (quotient_location n r) in
  q <= m1 <= q + 1 /\ 2 * Z.abs (m1 * n - M) <= n.
Proof.
  intros Hn HM Hr. unfold quotient_location, round_nearest_even.
  destruct (Z.eqb_spec r 0) as [->|Hr0]; [cbn; lia|].
  destruct (Z.compare_spec (2 * r) n); cbn zeta; try lia.
  destruct (Z.even q); lia.
Qed.

(** The same after one shift to the right: [q] has 54 bits and the result
    is the nearest integer to [M / (2 * n)]. *)
Lemma round_nearest_even_shifted (M n q r : Z) :
  0 < n -> M = q * n + r -> 0 <= r < n -> 0 <= q ->
  let mrs := shr_1 (shr_record_of_loc q (quotient_location n r)) in
  let m1 := round_nearest_even (shr_m mrs) (loc_of_shr_record mrs) in
  q / 2 <= m1 <= q / 2 + 1 /\ 2 * Z.abs (m1 * (2 * n) - M) <= 2 * n.
Proof.
  intros Hn HM Hr Hq.
  pose proof (Z.div_mod q 2 ltac:(lia)) as Hdiv.
  pose proof (Zmod_odd q) as Hodd.
  unfold quotient_location.
  destruct (Z.eqb_spec r 0) as [->|Hr0].
  - cbn [shr_record_of_loc]. rewrite shr_1_nonneg by lia.
    cbn [shr_m loc_of_shr_record orb]. cbn zeta.
    destruct (Z.odd q); cbn [round_nearest_even]; [|lia].
    destruct (Z.even (q / 2)); lia.
  - assert (Hs : forall c, shr_1 (shr_record_of_loc q (loc_Inexact c)) =
               {| shr_m := q / 2; shr_r := Z.odd q; shr_s := true |}).
    { intros c. destruct c; cbn [shr_record_of_loc]; rewrite shr_1_nonneg by lia;
        reflexivity. }
    rewrite Hs. cbn [shr_m loc_of_shr_record]. cbn zeta.
    destruct (Z.odd q); cbn [round_nearest_even]; lia.
Qed.

Lemma binary_round_aux_quotient (M n q r e0 : Z) :
  0 < n -> M = q * n + r -> 0 <= r < n ->
  2 ^ 52 <= q < 2 ^ 54 -> -1074 <= e0 <= 900 ->
  exists m e j,
    binary_round_aux prec emax false q e0 (quotient_location n r)
      = S754_finite false m e /\
    2 ^ 52 <= Zpos m < 2 ^ 53 /\
    e = e0 + j /\ 0 <= j <= 2 /\
    2 * Z.abs (Zpos m * 2 ^ j * n - M) <= 2 ^ j * n.
Proof.
  intros Hn HM Hr Hq He. unfold binary_round_aux.
  destruct (Z_lt_le_dec q (2 ^ 53)) as [Hlt|Hge].
  - rewrite shr_fexp_53 by lia.
    rewrite shr_record_of_loc_m, loc_of_shr_record_of_loc.
    destruct (round_nearest_even_quotient M n q r Hn HM Hr) as [Hm1 Herr].
    destruct (binary_round_finish false
                (round_nearest_even q (quotient_location n r)) e0)
      as (m2 & e2 & -> & Hm2 & Hcase); [lia|lia|].
    exists m2, e2.
    destruct Hcase as [[-> Heq]|[-> Heq]].
    + exists 0. change (2 ^ 0) with 1. repeat split; lia.
    + exists 1. change (2 ^ 1) with 2. repeat split; lia.
  - rewrite shr_fexp_54 by lia.
    destruct (round_nearest_even_shifted M n q r Hn HM Hr ltac:(lia))
      as [Hm1 Herr].
    pose proof (Z.div_mod q 2 ltac:(lia)) as Hdiv.
    pose proof (Z.mod_pos_bound q 2 ltac:(lia)) as Hmod.
    set (mrs := shr_1 (shr_record_of_loc q (quotient_location n r))) in *.
    destruct (binary_round_finish false
                (round_nearest_even (shr_m mrs) (loc_of_shr_record mrs)) (e0 + 1))
      as (m2 & e2 & -> & Hm2 & Hcase); [lia|lia|].
    exists m2, e2.
    destruct Hcase as [[-> Heq]|[-> Heq]].
    + exists 1. change (2 ^ 1) with 2. repeat split; lia.
    + exists 2. change (2 ^ 2) with 4. repeat split; lia.
Qed.

(** The digits of numerator and denominator when the quotient is between 1
    and 5. *)
Lemma digits_of_mean (s n : positive) :
  Zpos n <= Zpos s <= 5 * Zpos n ->
  exists x P,
    0 <= x <= 3 /\ Zpos (digits2_pos s) = Zpos (digits2_pos n) + x /\
    0 < P /\ P <= Zpos n < 2 * P /\
    2 ^ x * P <= Zpos s < 2 * (2 ^ x * P).
Proof.
  intros Hsn.
  pose proof (digits2_pos_bounds s) as Hs.
  pose proof (digits2_pos_bounds n) as Hn.
  set (d1 := Zpos (digits2_pos s)) in *.
  set (d2 := Zpos (digits2_pos n)) in *.
  assert (Hd1 : 0 < d1) by (unfold d1; lia).
  assert (Hd2 : 0 < d2) by (unfold d2; lia).
  assert (Hle : d2 <= d1).
  { destruct (Z_lt_le_dec d1 d2) as [Hlt|]; [|assumption].
    assert (2 ^ d1 <= 2 ^ (d2 - 1)) by (apply Z.pow_le_mono_r; lia). lia. }
  assert (Hge : d1 <= d2 + 3).
  { destruct (Z_lt_le_dec (d2 + 3) d1) as [Hlt|]; [|assumption].
    assert (2 ^ (d2 + 3) <= 2 ^ (d1 - 1)) by (apply Z.pow_le_mono_r; lia).
    rewrite Z.pow_add_r in H by lia. change (2 ^ 3) with 8 in H. lia. }
  exists (d1 - d2), (2 ^ (d2 - 1)).
  assert (Hpow : 2 ^ (d1 - 1) = 2 ^ (d1 - d2) * 2 ^ (d2 - 1)).
  { rewrite <- Z.pow_add_r by lia. f_equal. lia. }
  assert (Hpow1 : 2 ^ d1 = 2 * 2 ^ (d1 - 1)).
  { rewrite <- Z.pow_succ_r by lia. f_equal. lia. }
  assert (Hpow2 : 2 ^ d2 = 2 * 2 ^ (d2 - 1)).
  { rewrite <- Z.pow_succ_r by lia. f_equal. lia. }
  pose proof (Z.pow_pos_nonneg 2 (d2 - 1) ltac:(lia) ltac:(lia)).
  repeat split; try lia.
Qed.

Lemma SFdiv_core_mean (s n : positive) (x : Z) :
  0 <= x <= 3 -> Zpos (digits2_pos s) = Zpos (digits2_pos n) + x ->
  SFdiv_core_binary prec emax (Zpos s) 0 (Zpos n) 0 =
    ((Zpos s * 2 ^ (53 - x)) / Zpos n, x - 53,
     quotient_location (Zpos n) ((Zpos s * 2 ^ (53 - x)) mod Zpos n)).
Proof.
  intros Hx Hd. unfold SFdiv_core_binary. cbn [Zdigits2]. rewrite Hd.
  replace (Z.pos (digits2_pos n) + x + 0 - (Z.pos (digits2_pos n) + 0))
    with x by lia.
  unfold fexp, emin, prec, emax.
  replace (Z.min (Z.max (x - 53) (3 - 1024 - 53)) (0 - 0)) with (x - 53) by lia.
  replace (0 - 0 - (x - 53)) with (53 - x) by lia.
  assert (Hshift : match 53 - x with
                   | 0 => Zpos s
                   | Zpos _ => Z.shiftl (Zpos s) (53 - x)
                   | Zneg _ => 0
                   end = Zpos s * 2 ^ (53 - x)).
  { destruct (53 - x) as [|k|k] eqn:E; try lia.
    rewrite Z.shiftl_mul_pow2 by lia. reflexivity. }
  rewrite Hshift.
  pose proof (Z_div_mod (Zpos s * 2 ^ (53 - x)) (Zpos n) ltac:(lia)) as Hdm.
  unfold Z.div, Z.modulo.
  destruct (Z.div_eucl (Zpos s * 2 ^ (53 - x)) (Zpos n)) as [q r].
  rewrite new_location_spec by lia. reflexivity.
Qed.

Lemma py_truediv_mean (s n : Z) :
  0 < n -> n <= s <= 5 * n ->
  exists m e,
    py_truediv s n = Ok (S754_finite false m e) /\
    2 ^ 52 <= Zpos m < 2 ^ 53 /\
    -53 <= e <= -50 /\
    2 * Z.abs (Zpos m * n - s * 2 ^ (- e)) <= n.
Proof.
  intros Hn Hs.
  destruct n as [|n|n]; try lia. destruct s as [|s|s]; try lia.
  destruct (digits_of_mean s n Hs) as (x & P & Hx & Hd & HP & HnP & HsP).
  unfold py_truediv. cbn [Z.eqb Z.ltb Z.compare Z.abs Z.to_pos].
  unfold SFdiv. change (Z.to_pos (Z.abs (Z.pos s))) with s.
  change (Z.to_pos (Z.abs (Z.pos n))) with n. rewrite (SFdiv_core_mean s n x Hx Hd). cbn [xorb].
  set (M := Zpos s * 2 ^ (53 - x)).
  pose proof (Z.div_mod M (Zpos n) ltac:(lia)) as Hdm.
  pose proof (Z.mod_pos_bound M (Zpos n) ltac:(lia)) as Hmod.
  assert (HM : 2 ^ 53 * P <= M < 2 ^ 54 * P).
  { unfold M. assert (Hx' : x = 0 \/ x = 1 \/ x = 2 \/ x = 3) by lia.
    destruct Hx' as [-> | [-> | [-> | ->]]]; cbn in HsP |- *; lia. }
  assert (Hq : 2 ^ 52 <= M / Zpos n < 2 ^ 54) by nia.
  destruct (binary_round_aux_quotient M (Zpos n) (M / Zpos n) (M mod Zpos n)
              (x - 53)) as (m & e & j & -> & Hm & -> & Hj & Herr);
    try lia.
  exists m, (x - 53 + j). split; [reflexivity|]. split; [exact Hm|].
  unfold M in *. clear Hdm Hmod Hq HM Hd.
  assert (Hmn : 2 ^ 52 * Zpos n <= Zpos m * Zpos n) by nia.
  assert (Hx' : x = 0 \/ x = 1 \/ x = 2 \/ x = 3) by lia.
  assert (Hj' : j = 0 \/ j = 1 \/ j = 2) by lia.
  destruct Hx' as [-> | [-> | [-> | ->]]], Hj' as [-> | [-> | ->]];
    cbn in HsP, Herr |- *; split; lia.
Qed.

Lemma round_half_even_div_spec (a b : Z) :
  0 < b -> 2 * Z.abs (a - round_half_even_div a b * b) <= b.
Proof.
  intros Hb. unfold round_half_even_div.
  pose proof (Z.div_mod a b ltac:(lia)) as Hdm.
  pose proof (Z.mod_pos_bound a b Hb) as Hmod.
  destruct (Z.compare_spec (2 * (a mod b)) b); [destruct (Z.even (a / b))| |]; lia.
Qed.

(** [float_of_tenths] divides by ten the way [/] does. *)
Lemma float_of_tenths_truediv (d : Z) :
  0 < d -> float_of_tenths false d = py_truediv d 10.
Proof.
  intros Hd. unfold float_of_tenths, py_truediv.
  destruct d as [|p|p]; try lia. reflexivity.
Qed.

(** The float of a mean between 1 and 5, rounded to one decimal: the tenth
    [d] is nearest to the exact mean when there are at most [10 ^ 14]
    ratings. *)
Lemma round1_of_mean (s n : Z) :
  0 < n -> n <= s <= 5 * n -> n <= 10 ^ 14 ->
  exists d,
    10 <= d <= 50 /\
    2 * Z.abs (10 * s - d * n) <= n /\
    (x ← py_truediv s n; py_round1 x) = float_of_tenths false d.
Proof.
  intros Hn Hs Hbound.
  destruct (py_truediv_mean s n Hn Hs) as (m & e & -> & Hm & He & Herr).
  cbn [mbind result_bind py_round1].
  replace (0 <=? e) with false by (symmetry; apply Z.leb_gt; lia).
  set (d := round_half_even_div (10 * Z.pos m) (2 ^ (- e))).
  assert (HE : 0 < 2 ^ (- e)) by (apply Z.pow_pos_nonneg; lia).
  pose proof (round_half_even_div_spec (10 * Z.pos m) (2 ^ (- e)) HE) as Hd.
  fold d in Hd.
  assert (HE50 : 2 ^ 50 <= 2 ^ (- e)) by (apply Z.pow_le_mono_r; lia).
  assert (Hnear : 2 * Z.abs (10 * s - d * n) <= n).
  { revert Hd Herr HE50. generalize (2 ^ (- e)). intros E Hd Herr HE50.
    assert (Hdn : - (E * n) <= 20 * (Z.pos m * n) - 2 * (E * (d * n)) <= E * n)
      by nia.
    assert (HsE : - n <= 2 * (Z.pos m * n) - 2 * (s * E) <= n) by lia.
    assert (HEn : 10 * n < E) by lia.
    nia. }
  exists d. split; [nia|]. split; [exact Hnear|reflexivity].
Qed.

Lemma py_sum_bounds (l : list Z) :
  Forall (fun k => 1 <= k <= 5) l ->
  Z.of_nat (length l) <= py_sum l <= 5 * Z.of_nat (length l).
Proof.
  unfold py_sum. intros Hl.
  assert (G : forall acc, acc + Z.of_nat (length l) <= foldl Z.add acc l
                          <= acc + 5 * Z.of_nat (length l)).
  { induction Hl as [|k l Hk _ IH]; intros acc; cbn [foldl length].
    - lia.
    - specialize (IH (acc + k)). lia. }
  specialize (G 0). lia.
Qed.

(** ** [average_star_rating] *)

Lemma average_star_rating_eq (w : world) (self : addr) :
  reviews_complete w ->
  Restaurant_average_star_rating w self =
    match (fun a => default 0 (rating_of w a)) <$>
          filter (fun a => restaurant_of w a = Some self) (Review_all w) with
    | [] => Ok (S754_zero false)
    | ratings => x ← py_truediv (py_sum ratings) (Z.of_nat (length ratings));
                 py_round1 x
    end.
Proof.
  intros Hw. unfold Restaurant_average_star_rating.
  rewrite (Restaurant_reviews_eq w self Hw). cbn [mbind result_bind].
  rewrite mapR_rating by (by apply complete_filter).
  cbn [mbind result_bind]. by destruct (_ <$> _).
Qed.

(** The sum that [sum(ratings)] computes from the left is the sum of the
    list. *)
Lemma py_sum_foldr (l : list Z) : py_sum l = foldr Z.add 0 l.
Proof.
  unfold py_sum.
  assert (G : forall acc, foldl Z.add acc l = acc + foldr Z.add 0 l).
  { induction l as [|k l IH]; intros acc; cbn [foldl foldr]; [lia|].
    rewrite IH. lia. }
  apply (G 0).
Qed.

(** C2. [average_star_rating()] of a Restaurant without reviews is the
    float 0.0.  Otherwise, with [ratings] the ratings of the Reviews that
    refer to the Restaurant, it is the float nearest to [d / 10], where
    [d / 10] is a one-decimal number nearest to the exact mean: the sum of
    the ratings (the mathematical sum [foldr Z.add 0 ratings], not the
    function the code computes it with) divided by their number; ratings
    3, 4, 5 give 4.0.  The ratings are those the setter admits (1 to 5)
    and there are at most [10 ^ 14]. *)
Theorem average_star_rating_is_rounded_mean (w : world) (self : addr) :
  reviews_complete w ->
  let ratings := (fun a => default 0 (rating_of w a)) <$>
                 filter (fun a => restaurant_of w a = Some self) (Review_all w) in
  (ratings = [] ->
     Restaurant_average_star_rating w self = Ok (S754_zero false)) /\
  (ratings <> [] ->
   Forall (fun k => 1 <= k <= 5) ratings ->
   Z.of_nat (length ratings) <= 10 ^ 14 ->
   exists d m e,
     Restaurant_average_star_rating w self = Ok (S754_finite false m e) /\
     2 * Z.abs (10 * foldr Z.add 0 ratings - d * Z.of_nat (length ratings))
       <= Z.of_nat (length ratings) /\
     2 ^ 52 <= Zpos m < 2 ^ 53 /\
     2 * Z.abs (10 * Zpos m - d * 2 ^ (- e)) <= 10) /\
  (ratings = [3; 4; 5] ->
     Restaurant_average_star_rating w self = Ok float_4_0).
Proof.
  intros Hw. cbv zeta. generalize (average_star_rating_eq w self Hw).
  generalize ((fun a => default 0 (rating_of w a)) <$>
              filter (fun a => restaurant_of w a = Some self) (Review_all w)).
  intros ratings E. split; [|split].
  - intros Hnil. rewrite E, Hnil. reflexivity.
  - intros Hne Hvalid Hlen.
    pose proof (py_sum_bounds ratings Hvalid) as Hsum.
    assert (Hpos : 0 < Z.of_nat (length ratings)).
    { destruct ratings; [congruence|cbn [length]; lia]. }
    destruct (round1_of_mean (py_sum ratings) (Z.of_nat (length ratings))
                Hpos Hsum Hlen) as (d & Hd & Hnear & Hround).
    destruct (py_truediv_mean d 10 ltac:(lia) ltac:(lia))
      as (m & e & Hdiv & Hm & He & Herr).
    exists d, m, e.
    split; [|split; [by rewrite <- py_sum_foldr|split; [exact Hm|lia]]].
    rewrite E. destruct ratings as [|k ks]; [congruence|]. lazy beta iota zeta.
    rewrite Hround, float_of_tenths_truediv by lia. exact Hdiv.
  - intros H345. rewrite E, H345. vm_compute. reflexivity.
Qed.

Lemma trattoria_complete : reviews_complete trattoria.
Proof. repeat constructor; by eexists. Qed.

Lemma average_star_rating_is_rounded_mean_witness :
  reviews_complete trattoria /\
  Restaurant_average_star_rating trattoria 1%nat = Ok float_4_0 /\
  reviews_complete bistro /\
  exists m e,
    Restaurant_average_star_rating bistro 2%nat = Ok (S754_finite false m e) /\
    2 ^ 52 <= Zpos m < 2 ^ 53 /\
    2 * Z.abs (10 * Zpos m - 45 * 2 ^ (- e)) <= 10.
Proof.
  split; [exact trattoria_complete|].
  destruct (average_star_rating_is_rounded_mean trattoria 1%nat
              trattoria_complete) as (_ & _ & H345).
  split; [apply H345; reflexivity|].
  split; [exact bistro_complete|].
  destruct (average_star_rating_is_rounded_mean bistro 2%nat
              bistro_complete) as (_ & Hmean & _).
  match type of Hmean with
  | ?ratings <> _ -> _ => assert (Hr : ratings = [4; 5]) by reflexivity
  end.
  rewrite Hr in Hmean.
  destruct Hmean as (d & m & e & Hav & Hnear & Hm & Hfloat).
  - discriminate.
  - repeat constructor; lia.
  - vm_compute. discriminate.
  - cbn in Hnear. assert (d = 45) as -> by lia.
    exists m, e. auto.
Defined.

(** A mean that lies exactly between two tenths goes to the side on which
    its float lies: 23 / 20 is the float just below 1.15 and rounds to
    1.1; 9 / 4 is exactly 2.25 and rounds to the even tenth 2.2. *)
Example round1_between_tenths :
  (x ← py_truediv 23 20; py_round1 x) = float_of_tenths false 11 /\
  (x ← py_truediv 9 4; py_round1 x) = float_of_tenths false 22.
Proof. split; reflexivity. Qed.

(** * Further properties of the classes *)

(** ** Assignments to the properties *)

Lemma lookup_store_eq (h : list obj) (a : addr) (o o' : obj) :
  h !! a = Some o -> <[a := o']> h !! a = Some o'.
Proof.
  intros H. apply list_lookup_insert_eq. by eapply lookup_lt_Some.
Qed.

Lemma set_first_name_eq (w : world) (self : addr) (c : CustomerObj) (value : pyval) :
  heap w !! self = Some (OCustomer c) ->
  Customer.set_first_name self value w =
    (Ok tt,
     if valid_name value
     then set_heap (<[self := OCustomer {| _first_name := Some (str_value value);
                                           _last_name := _last_name c |}]> (heap w)) w
     else w).
Proof.
  intros H. unfold Customer.set_first_name, Customer.self_obj, get_world, store,
    mbind, M_bind, mret, M_ret.
  rewrite H. by destruct (valid_name value).
Qed.

Lemma set_last_name_eq (w : world) (self : addr) (c : CustomerObj) (value : pyval) :
  heap w !! self = Some (OCustomer c) ->
  Customer.set_last_name self value w =
    (Ok tt,
     if valid_name value
     then set_heap (<[self := OCustomer {| _first_name := _first_name c;
                                           _last_name := Some (str_value value) |}]>
                      (heap w)) w
     else w).
Proof.
  intros H. unfold Customer.set_last_name, Customer.self_obj, get_world, store,
    mbind, M_bind, mret, M_ret.
  rewrite H. by destruct (valid_name value).
Qed.

Lemma set_name_eq (w : world) (self : addr) (r : RestaurantObj) (value : pyval) :
  heap w !! self = Some (ORestaurant r) ->
  Restaurant.set_name self value w =
    (Ok tt,
     if valid_name value
     then set_heap (<[self := ORestaurant {| _name := Some (str_value value) |}]>
                      (heap w)) w
     else w).
Proof.
  intros H. unfold Restaurant.set_name, Restaurant.self_obj, get_world, store,
    mbind, M_bind, mret, M_ret.
  rewrite H. by destruct (valid_name value).
Qed.

Lemma set_rating_eq (w : world) (self : addr) (v : ReviewObj) (val : pyval) :
  heap w !! self = Some (OReview v) ->
  Review.set_rating self val w =
    (Ok tt,
     if isinstance_int val && (1 <=? int_value val) && (int_value val <=? 5)
        && negb (bool_decide (is_Some (_rating v)))
     then set_heap (<[self := OReview {| _customer := _customer v;
                                         _restaurant := _restaurant v;
                                         _rating := Some (int_value val) |}]>
                      (heap w)) w
     else w).
Proof.
  intros H. unfold Review.set_rating, Review.self_obj, get_world, store,
    mbind, M_bind, mret, M_ret.
  rewrite H. by destruct (_ && _).
Qed.

Lemma set_customer_eq (w : world) (self : addr) (v : ReviewObj) (val : pyval) :
  heap w !! self = Some (OReview v) ->
  Review.set_customer self val w =
    (Ok tt,
     if isinstance_Customer w val
     then set_heap (<[self := OReview {| _customer := Some (ref_value val);
                                         _restaurant := _restaurant v;
                                         _rating := _rating v |}]>
                      (heap w)) w
     else w).
Proof.
  intros H. unfold Review.set_customer, Review.self_obj, get_world, store,
    mbind, M_bind, mret, M_ret.
  rewrite H. by destruct (isinstance_Customer w val).
Qed.

(** X1. Assigning a valid name to [first_name], [last_name] or [name] of an
    instance replaces the stored name: the getter returns the new string,
    the other name of a Customer is untouched, and so are every other
    object and the registries. *)
Theorem name_assignment_replaces (w : world) (self : addr) (value : string) :
  (1 <= String.length value <= 25)%nat ->
  (is_customer w self ->
   (let w' := snd (Customer.set_first_name self (VStr value) w) in
    fst (Customer.set_first_name self (VStr value) w) = Ok tt /\
    Customer.first_name w' self = Ok value /\
    Customer.last_name w' self = Customer.last_name w self /\
    (forall a, a <> self -> heap w' !! a = heap w !! a) /\
    Customer_all w' = Customer_all w) /\
   (let w' := snd (Customer.set_last_name self (VStr value) w) in
    fst (Customer.set_last_name self (VStr value) w) = Ok tt /\
    Customer.last_name w' self = Ok value /\
    Customer.first_name w' self = Customer.first_name w self /\
    (forall a, a <> self -> heap w' !! a = heap w !! a) /\
    Customer_all w' = Customer_all w)) /\
  (is_restaurant w self ->
   let w' := snd (Restaurant.set_name self (VStr value) w) in
   fst (Restaurant.set_name self (VStr value) w) = Ok tt /\
   Restaurant.name w' self = Ok value /\
   (forall a, a <> self -> heap w' !! a = heap w !! a) /\
   Restaurant_all w' = Restaurant_all w).
Proof.
  intros Hlen. pose proof (valid_name_str value Hlen) as Hv.
  split; [intros [c Hc]; split|intros [r Hr]]; cbn zeta.
  - rewrite (set_first_name_eq w self c _ Hc), Hv. cbn [fst snd].
    unfold Customer.first_name, Customer.last_name, Customer.self_obj.
    cbn [heap Customer_all set_heap].
    rewrite (lookup_store_eq _ _ _ _ Hc), Hc. cbn.
    repeat split; try reflexivity.
    intros a Ha. by apply list_lookup_insert_ne.
  - rewrite (set_last_name_eq w self c _ Hc), Hv. cbn [fst snd].
    unfold Customer.first_name, Customer.last_name, Customer.self_obj.
    cbn [heap Customer_all set_heap].
    rewrite (lookup_store_eq _ _ _ _ Hc), Hc. cbn.
    repeat split; try reflexivity.
    intros a Ha. by apply list_lookup_insert_ne.
  - rewrite (set_name_eq w self r _ Hr), Hv. cbn [fst snd].
    unfold Restaurant.name, Restaurant.self_obj.
    cbn [heap Restaurant_all set_heap].
    rewrite (lookup_store_eq _ _ _ _ Hr). cbn.
    repeat split; try reflexivity.
    intros a Ha. by apply list_lookup_insert_ne.
Qed.

(** X2. Assigning an invalid name (not a string, empty, or longer than 25
    characters) to [first_name], [last_name] or [name] of an instance is
    ignored without an exception: the world, and with it the name stored
    before, stays as it was. *)
Theorem invalid_name_assignment_ignored (w : world) (self : addr) (value : pyval) :
  valid_name value = false ->
  (is_customer w self ->
   Customer.set_first_name self value w = (Ok tt, w) /\
   Customer.set_last_name self value w = (Ok tt, w)) /\
  (is_restaurant w self ->
   Restaurant.set_name self value w = (Ok tt, w)).
Proof.
  intros Hv. split; [intros [c Hc]; split|intros [r Hr]].
  - by rewrite (set_first_name_eq w self c _ Hc), Hv.
  - by rewrite (set_last_name_eq w self c _ Hc), Hv.
  - by rewrite (set_name_eq w self r _ Hr), Hv.
Qed.

(** X3. On a Review that has no rating yet, assigning an [int] from 1 to 5
    (the [bool] [True] counts as 1) stores it, and leaves the customer,
    the restaurant and the registry alone; assigning anything else is
    ignored without an exception, so the rating stays unset and reading it
    still raises [AttributeError]. *)
Theorem first_rating_assignment (w : world) (self : addr) (v : ReviewObj)
    (val : pyval) :
  heap w !! self = Some (OReview v) ->
  _rating v = None ->
  (isinstance_int val = true -> 1 <= int_value val <= 5 ->
   let w' := snd (Review.set_rating self val w) in
   fst (Review.set_rating self val w) = Ok tt /\
   Review.rating w' self = Ok (int_value val) /\
   Review.customer w' self = Review.customer w self /\
   Review.restaurant w' self = Review.restaurant w self /\
   Review_all w' = Review_all w) /\
  (isinstance_int val = false \/ int_value val < 1 \/ 5 < int_value val ->
   Review.set_rating self val w = (Ok tt, w) /\
   Review.rating w self = Raise AttributeError).
Proof.
  intros Hself Hnone. rewrite (set_rating_eq w self v val Hself), Hnone.
  rewrite bool_decide_eq_false_2 by (by intros [? ?]).
  split.
  - intros Hint [H1 H5]. cbn zeta. rewrite Hint.
    rewrite (proj2 (Z.leb_le _ _) H1), (proj2 (Z.leb_le _ _) H5).
    cbn [andb negb fst snd].
    unfold Review.rating, Review.customer, Review.restaurant, Review.self_obj.
    cbn [heap Review_all set_heap].
    rewrite (lookup_store_eq _ _ _ _ Hself), Hself. cbn. auto.
  - intros Hbad.
    assert (Hcond : isinstance_int val && (1 <=? int_value val)
                    && (int_value val <=? 5) = false).
    { destruct Hbad as [->|[H|H]]; [reflexivity| |].
      - rewrite (proj2 (Z.leb_gt _ _) H). by rewrite andb_false_r.
      - rewrite (proj2 (Z.leb_gt _ _) H). by rewrite andb_false_r. }
    rewrite Hcond. cbn [andb]. split; [reflexivity|].
    unfold Review.rating, Review.self_obj. rewrite Hself. cbn.
    by rewrite Hnone.
Qed.

(** X4. Unlike the rating, the customer of a Review can be assigned again:
    a Customer instance replaces whatever customer was stored, and the
    rating and the restaurant are untouched; any other value is ignored
    without an exception. *)
Theorem customer_assignment (w : world) (self : addr) (v : ReviewObj)
    (val : pyval) :
  heap w !! self = Some (OReview v) ->
  (isinstance_Customer w val = true ->
   let w' := snd (Review.set_customer self val w) in
   fst (Review.set_customer self val w) = Ok tt /\
   Review.customer w' self = Ok (ref_value val) /\
   Review.rating w' self = Review.rating w self /\
   Review.restaurant w' self = Review.restaurant w self /\
   Review_all w' = Review_all w) /\
  (isinstance_Customer w val = false ->
   Review.set_customer self val w = (Ok tt, w)).
Proof.
  intros Hself. rewrite (set_customer_eq w self v val Hself).
  split; intros ->; [|reflexivity]. cbn zeta. cbn [fst snd].
  unfold Review.rating, Review.customer, Review.restaurant, Review.self_obj.
  cbn [heap Review_all set_heap].
  rewrite (lookup_store_eq _ _ _ _ Hself), Hself. cbn. auto.
Qed.

(** ** Invariants of the reachable worlds *)

Lemma heap_grows_refl (h : list obj) : heap_grows h h.
Proof. intros a o H. eauto. Qed.

Lemma heap_grows_app (h : list obj) (o : obj) : heap_grows h (h ++ [o]).
Proof.
  intros a o0 H. exists o0. split; [|reflexivity].
  by apply lookup_app_l_Some.
Qed.

Lemma heap_grows_insert (h : list obj) (self : addr) (o o' : obj) :
  h !! self = Some o -> class_of o' = class_of o ->
  heap_grows h (<[self := o']> h).
Proof.
  intros Hself Hclass a o0 H. destruct (decide (a = self)) as [Heq|Hne].
  - subst a. exists o'. rewrite (lookup_store_eq _ _ _ _ Hself).
    split; [reflexivity|].
    assert (E : Some o0 = Some o) by (etrans; [symmetry; exact H|exact Hself]).
    by injection E as ->.
  - exists o0. by rewrite list_lookup_insert_ne.
Qed.

Lemma is_customer_grows (w w' : world) (a : addr) :
  heap_grows (heap w) (heap w') -> is_customer w a -> is_customer w' a.
Proof.
  intros Hg [o Ho]. destruct (Hg _ _ Ho) as (o' & Ho' & Hc).
  destruct o'; try discriminate. by eexists.
Qed.

Lemma is_restaurant_grows (w w' : world) (a : addr) :
  heap_grows (heap w) (heap w') -> is_restaurant w a -> is_restaurant w' a.
Proof.
  intros Hg [o Ho]. destruct (Hg _ _ Ho) as (o' & Ho' & Hc).
  destruct o'; try discriminate. by eexists.
Qed.

Lemma obj_ok_grows (w w' : world) (o : obj) :
  heap_grows (heap w) (heap w') -> obj_ok w o -> obj_ok w' o.
Proof.
  intros Hg. destruct o as [c|r|v]; cbn; try done.
  intros [Hr Hc]. split; [exact Hr|].
  destruct (_customer v); [|done]. by eapply is_customer_grows.
Qed.

Lemma name_ok_valid (value : pyval) :
  name_ok (if valid_name value then Some (str_value value) else None).
Proof.
  destruct (valid_name value) eqn:Hv; [|exact I].
  destruct value; try discriminate. cbn in *.
  apply andb_true_iff in Hv as [H1 H2].
  apply Z.leb_le in H1, H2. lia.
Qed.

Lemma world_inv_update (w : world) (self : addr) (o o' : obj) :
  heap w !! self = Some o -> class_of o' = class_of o -> obj_ok w o' ->
  world_inv w -> world_inv (set_heap (<[self := o']> (heap w)) w).
Proof.
  intros Hself Hclass Hok (Hattr & (Hc1 & Hc2 & Hr1 & Hr2) & Hrev).
  pose proof (heap_grows_insert _ _ _ _ Hself Hclass) as Hg.
  set (w' := set_heap (<[self := o']> (heap w)) w).
  assert (Hg' : heap_grows (heap w) (heap w')) by exact Hg.
  split; [|split; [|exact Hrev]].
  - unfold attributes_valid. cbn [heap w' set_heap].
    apply Forall_insert.
    + eapply Forall_impl; [exact Hattr|]. intros x. by apply obj_ok_grows.
    + by apply (obj_ok_grows w).
  - repeat split; cbn [Customer_all Restaurant_all w' set_heap]; try assumption.
    + eapply Forall_impl; [exact Hc2|]. intros a. by apply is_customer_grows.
    + eapply Forall_impl; [exact Hr2|]. intros a. by apply is_restaurant_grows.
Qed.

Lemma fresh_not_registered (w : world) (l : list addr) (P : addr -> Prop) :
  (forall a, P a -> (a < length (heap w))%nat) ->
  Forall P l -> length (heap w) ∉ l.
Proof.
  intros HP Hl Hin. pose proof (proj1 (Forall_forall _ _) Hl _ Hin) as H.
  apply HP in H. lia.
Qed.

Lemma is_customer_lt (w : world) (a : addr) :
  is_customer w a -> (a < length (heap w))%nat.
Proof. intros [o Ho]. by eapply lookup_lt_Some. Qed.

Lemma is_restaurant_lt (w : world) (a : addr) :
  is_restaurant w a -> (a < length (heap w))%nat.
Proof. intros [o Ho]. by eapply lookup_lt_Some. Qed.

Lemma world_inv_Customer (w : world) (first last : pyval) :
  world_inv w -> world_inv (snd (Customer.init first last w)).
Proof.
  intros (Hattr & (Hc1 & Hc2 & Hr1 & Hr2) & Hrev).
  rewrite Customer_init_eq. cbn [snd].
  set (w' := {| heap := _; Customer_all := _ |}).
  assert (Hg : heap_grows (heap w) (heap w')) by apply heap_grows_app.
  split; [|split; [|exact Hrev]].
  - unfold attributes_valid. cbn [heap w']. apply Forall_app. split.
    + eapply Forall_impl; [exact Hattr|]. intros x. by apply obj_ok_grows.
    + repeat constructor; apply name_ok_valid.
  - repeat split; cbn [Customer_all Restaurant_all w']; try assumption.
    + apply NoDup_app. split; [exact Hc1|]. split; [|apply NoDup_singleton].
      intros a Ha Hin. apply list_elem_of_singleton in Hin as ->.
      by apply (fresh_not_registered w _ _ (is_customer_lt w) Hc2).
    + apply Forall_app. split.
      * eapply Forall_impl; [exact Hc2|]. intros a. by apply is_customer_grows.
      * repeat constructor. eexists. cbn [heap w']. apply lookup_fresh.
    + eapply Forall_impl; [exact Hr2|]. intros a. by apply is_restaurant_grows.
Qed.

Lemma world_inv_Restaurant (w : world) (name : pyval) :
  world_inv w -> world_inv (snd (Restaurant.init name w)).
Proof.
  intros (Hattr & (Hc1 & Hc2 & Hr1 & Hr2) & Hrev).
  rewrite Restaurant_init_eq. cbn [snd].
  set (w' := {| heap := _; Customer_all := _ |}).
  assert (Hg : heap_grows (heap w) (heap w')) by apply heap_grows_app.
  split; [|split; [|exact Hrev]].
  - unfold attributes_valid. cbn [heap w']. apply Forall_app. split.
    + eapply Forall_impl; [exact Hattr|]. intros x. by apply obj_ok_grows.
    + repeat constructor; apply name_ok_valid.
  - repeat split; cbn [Customer_all Restaurant_all w']; try assumption.
    + eapply Forall_impl; [exact Hc2|]. intros a. by apply is_customer_grows.
    + apply NoDup_app. split; [exact Hr1|]. split; [|apply NoDup_singleton].
      intros a Ha Hin. apply list_elem_of_singleton in Hin as ->.
      by apply (fresh_not_registered w _ _ (is_restaurant_lt w) Hr2).
    + apply Forall_app. split.
      * eapply Forall_impl; [exact Hr2|]. intros a. by apply is_restaurant_grows.
      * repeat constructor. eexists. cbn [heap w']. apply lookup_fresh.
Qed.

Lemma isinstance_Customer_is_customer (w : world) (val : pyval) :
  isinstance_Customer w val = true -> is_customer w (ref_value val).
Proof.
  destruct val as [| | | | |a]; try discriminate. cbn.
  destruct (heap w !! a) as [[c| |]|] eqn:E; try discriminate.
  intros _. by exists c.
Qed.

(** The world that [Review(customer, restaurant, rating)] leaves behind
    when it raises: the registries are untouched, and the heap holds one
    more object, to which nothing refers. *)
Lemma Review_init_eq (w : world) (customer restaurant rating : pyval) :
  Review.init customer restaurant rating w =
    (Raise AttributeError,
     set_heap
       (heap w ++
        [OReview
           {| _customer :=
                if isinstance_Customer
                     (set_heap (heap w ++
                        [OReview {| _customer := None; _restaurant := None;
                                    _rating := None |}]) w) customer
                then Some (ref_value customer) else None;
              _restaurant := None; _rating := None |}]) w).
Proof.
  unfold Review.init, Review.set_customer, Review.set_restaurant,
    Review.self_obj, alloc, store, get_world, raise,
    mbind, M_bind, mret, M_ret.
  cbn [heap set_heap]. rewrite lookup_fresh.
  destruct (isinstance_Customer _ customer); cbn [heap set_heap];
    rewrite ?insert_fresh; reflexivity.
Qed.

Lemma world_inv_Review (w : world) (customer restaurant rating : pyval) :
  world_inv w -> world_inv (snd (Review.init customer restaurant rating w)).
Proof.
  intros (Hattr & (Hc1 & Hc2 & Hr1 & Hr2) & Hrev).
  rewrite Review_init_eq. cbn [snd].
  set (w1 := set_heap (heap w ++ [OReview {| _customer := None;
                 _restaurant := None; _rating := None |}]) w).
  set (w' := set_heap _ w).
  assert (Hg : heap_grows (heap w) (heap w')) by apply heap_grows_app.
  assert (Hg1 : heap_grows (heap w1) (heap w')).
  { cbn [heap w1 w' set_heap]. intros a o Ho.
    apply lookup_app_Some in Ho as [Ho|[Hge Ho]].
    - exists o. split; [by apply lookup_app_l_Some|reflexivity].
    - apply list_lookup_singleton_Some in Ho as [Ha <-].
      assert (a = length (heap w)) as -> by lia.
      eexists. rewrite lookup_fresh. split; reflexivity. }
  split; [|split; [|exact Hrev]].
  - unfold attributes_valid. cbn [heap w' set_heap]. apply Forall_app. split.
    + eapply Forall_impl; [exact Hattr|]. intros x. by apply obj_ok_grows.
    + repeat constructor.
      destruct (isinstance_Customer w1 customer) eqn:E; [|exact I].
      apply (is_customer_grows w1); [exact Hg1|].
      by apply isinstance_Customer_is_customer.
  - repeat split; cbn [Customer_all Restaurant_all w' set_heap]; try assumption.
    + eapply Forall_impl; [exact Hc2|]. intros a. by apply is_customer_grows.
    + eapply Forall_impl; [exact Hr2|]. intros a. by apply is_restaurant_grows.
Qed.

Lemma obj_ok_lookup (w : world) (a : addr) (o : obj) :
  attributes_valid w -> heap w !! a = Some o -> obj_ok w o.
Proof. intros H Ha. exact (proj1 (Forall_lookup _ _) H a o Ha). Qed.

Lemma valid_name_ok (value : pyval) :
  valid_name value = true -> name_ok (Some (str_value value)).
Proof. intros H. pose proof (name_ok_valid value) as G. by rewrite H in G. Qed.

Lemma world_inv_first_name (w : world) (self : addr) (value : pyval) :
  is_customer w self -> world_inv w ->
  world_inv (snd (Customer.set_first_name self value w)).
Proof.
  intros [c Hc] Hw. rewrite (set_first_name_eq w self c value Hc). cbn [snd].
  destruct (valid_name value) eqn:Hv; [|exact Hw].
  apply (world_inv_update w self (OCustomer c)); try done.
  destruct (obj_ok_lookup w self _ (proj1 Hw) Hc) as [_ Hl].
  split; [by apply valid_name_ok|exact Hl].
Qed.

Lemma world_inv_last_name (w : world) (self : addr) (value : pyval) :
  is_customer w self -> world_inv w ->
  world_inv (snd (Customer.set_last_name self value w)).
Proof.
  intros [c Hc] Hw. rewrite (set_last_name_eq w self c value Hc). cbn [snd].
  destruct (valid_name value) eqn:Hv; [|exact Hw].
  apply (world_inv_update w self (OCustomer c)); try done.
  destruct (obj_ok_lookup w self _ (proj1 Hw) Hc) as [Hf _].
  split; [exact Hf|by apply valid_name_ok].
Qed.

Lemma world_inv_name (w : world) (self : addr) (value : pyval) :
  is_restaurant w self -> world_inv w ->
  world_inv (snd (Restaurant.set_name self value w)).
Proof.
  intros [r Hr] Hw. rewrite (set_name_eq w self r value Hr). cbn [snd].
  destruct (valid_name value) eqn:Hv; [|exact Hw].
  apply (world_inv_update w self (ORestaurant r)); try done.
  by apply valid_name_ok.
Qed.

Lemma world_inv_rating (w : world) (self : addr) (val : pyval) :
  is_review w self -> world_inv w ->
  world_inv (snd (Review.set_rating self val w)).
Proof.
  intros [v Hv] Hw. rewrite (set_rating_eq w self v val Hv). cbn [snd].
  destruct (_ && _) eqn:Hcond; [|exact Hw].
  apply (world_inv_update w self (OReview v)); try done.
  destruct (obj_ok_lookup w self _ (proj1 Hw) Hv) as [_ Hc].
  split; [|exact Hc]. cbn.
  apply andb_true_iff in Hcond as [Hcond _].
  apply andb_true_iff in Hcond as [Hcond H5].
  apply andb_true_iff in Hcond as [_ H1].
  apply Z.leb_le in H1, H5. lia.
Qed.

Lemma world_inv_customer (w : world) (self : addr) (val : pyval) :
  is_review w self -> world_inv w ->
  world_inv (snd (Review.set_customer self val w)).
Proof.
  intros [v Hv] Hw. rewrite (set_customer_eq w self v val Hv). cbn [snd].
  destruct (isinstance_Customer w val) eqn:Hc; [|exact Hw].
  apply (world_inv_update w self (OReview v)); try done.
  destruct (obj_ok_lookup w self _ (proj1 Hw) Hv) as [Hr _].
  split; [exact Hr|]. cbn. by apply isinstance_Customer_is_customer.
Qed.

Lemma reachable_inv (w : world) : reachable w -> world_inv w.
Proof.
  induction 1.
  - repeat split; constructor.
  - by apply world_inv_Customer.
  - by apply world_inv_Restaurant.
  - by apply world_inv_Review.
  - by apply world_inv_first_name.
  - by apply world_inv_last_name.
  - by apply world_inv_name.
  - by apply world_inv_rating.
  - by apply world_inv_customer.
Qed.

(** X5. Whatever a program does with the constructors and the property
    assignments, a name that can be read is a string of 1 to 25 characters,
    a rating that can be read is an integer from 1 to 5, and a customer
    that can be read from a Review is a Customer instance. *)
Theorem reachable_attributes_valid (w : world) (self : addr) :
  reachable w ->
  (forall s, Customer.first_name w self = Ok s ->
             (1 <= String.length s <= 25)%nat) /\
  (forall s, Customer.last_name w self = Ok s ->
             (1 <= String.length s <= 25)%nat) /\
  (forall s, Restaurant.name w self = Ok s ->
             (1 <= String.length s <= 25)%nat) /\
  (forall k, Review.rating w self = Ok k -> 1 <= k <= 5) /\
  (forall c, Review.customer w self = Ok c -> is_customer w c).
Proof.
  intros Hreach. destruct (reachable_inv w Hreach) as (Hattr & _ & _).
  unfold Customer.first_name, Customer.last_name, Customer.self_obj,
    Restaurant.name, Restaurant.self_obj,
    Review.rating, Review.customer, Review.self_obj.
  split; [|split; [|split; [|split]]]; intros x Hx;
    destruct (heap w !! self) as [[c|r|v]|] eqn:E; try discriminate Hx;
    pose proof (obj_ok_lookup w self _ Hattr E) as Hok;
    cbv [obj_ok] in Hok; cbn [mbind result_bind] in Hx;
    match type of Hx with
    | match ?o with Some _ => _ | None => _ end = Ok _ =>
        destruct o; [injection Hx as <-|discriminate Hx]
    end; cbv [name_ok rating_ok] in Hok; tauto.
Qed.

(** X6. In every reachable world [Customer.all] and [Restaurant.all] list
    each instance once, and what they list are instances of their class
    that exist in the heap. *)
Theorem reachable_registries_wf (w : world) :
  reachable w ->
  NoDup (Customer_all w) /\ Forall (is_customer w) (Customer_all w) /\
  NoDup (Restaurant_all w) /\ Forall (is_restaurant w) (Restaurant_all w).
Proof. intros Hreach. exact (proj1 (proj2 (reachable_inv w Hreach))). Qed.

Lemma filter_Forall_id {A} (P : A -> Prop) `{!forall x, Decision (P x)}
    (l : list A) :
  Forall P l -> filter P l = l.
Proof.
  induction 1 as [|x l Hx _ IH]; [reflexivity|].
  by rewrite filter_cons_True, IH.
Qed.

(** When every key equals [k], sorting changes nothing. *)
Lemma sorted_reverse_constant {A} (key : A -> spec_float) (k : spec_float)
    (l : list A) :
  not_nan k -> Forall (fun a => key a = k) l ->
  snd <$> sorted_reverse float_lt (with_key key <$> l) = l.
Proof.
  intros Hk Hl.
  destruct (sorted_reverse_by_key float_lt not_nan key
              float_lt_asym float_lt_neg_trans l) as (Hperm & _ & Hstable).
  { eapply Forall_impl; [exact Hl|]. intros a ->. exact Hk. }
  assert (Hirr : float_lt k k = false).
  { destruct (float_lt k k) eqn:E; [|reflexivity].
    by rewrite (float_lt_asym k k Hk Hk E) in E. }
  assert (Hall : Forall (key_equal float_lt key k) l).
  { eapply Forall_impl; [exact Hl|]. intros a Ha.
    unfold key_equal. by rewrite Ha. }
  specialize (Hstable k Hk).
  rewrite (filter_Forall_id _ l Hall) in Hstable.
  rewrite filter_Forall_id in Hstable; [exact Hstable|].
  by rewrite Hperm.
Qed.

Lemma top_two_constant (w : world) (k : spec_float) :
  Forall (fun r => is_restaurant w r /\
                   Restaurant_average_star_rating w r = Ok k)
         (Restaurant_all w) ->
  Restaurant_top_two_restaurants w = Ok (take 2 (Restaurant_all w)).
Proof.
  intros H. rewrite top_two_keys.
  - destruct (Restaurant_all w) as [|r l] eqn:E; [reflexivity|].
    rewrite (sorted_reverse_constant _ k); [reflexivity| |].
    + apply Forall_cons in H as [[_ Hr] _]. by apply average_not_nan in Hr.
    + eapply Forall_impl; [exact H|]. intros a [_ Ha].
      unfold average_of. by rewrite Ha.
  - eapply Forall_impl; [exact H|]. intros a [Hr Ha]. eauto.
Qed.

Lemma no_reviews_queries (w : world) (self : addr) :
  Review_all w = [] ->
  Customer_reviews w self = Ok [] /\
  Restaurant_reviews w self = Ok [] /\
  Customer_num_negative_reviews w self = Ok 0 /\
  Restaurant_average_star_rating w self = Ok (S754_zero false) /\
  forall v, Customer_has_reviewed_restaurant w self v = Ok false.
Proof.
  intros H.
  unfold Customer_has_reviewed_restaurant, Restaurant_average_star_rating,
    Customer_num_negative_reviews, Customer_reviews, Restaurant_reviews.
  rewrite H. repeat split; reflexivity.
Qed.

(** X7. As the constructor of Review stands, a program never gets a Review
    registered: in every reachable world [Review.all] is empty, so every
    [reviews()] is empty, [num_negative_reviews()] is 0,
    [has_reviewed_restaurant()] is false, every [average_star_rating()] is
    0.0, and [top_two_restaurants()] is the first two registered
    Restaurants. *)
Theorem reachable_has_no_reviews (w : world) :
  reachable w ->
  Review_all w = [] /\
  (forall self,
     Customer_reviews w self = Ok [] /\
     Restaurant_reviews w self = Ok [] /\
     Customer_num_negative_reviews w self = Ok 0 /\
     Restaurant_average_star_rating w self = Ok (S754_zero false) /\
     forall v, Customer_has_reviewed_restaurant w self v = Ok false) /\
  Restaurant_top_two_restaurants w = Ok (take 2 (Restaurant_all w)).
Proof.
  intros Hreach.
  destruct (reachable_inv w Hreach) as (_ & (_ & _ & _ & Hr) & Hrev).
  split; [exact Hrev|]. split; [intros self; by apply no_reviews_queries|].
  apply (top_two_constant w (S754_zero false)).
  eapply Forall_impl; [exact Hr|]. intros r Hrest. split; [exact Hrest|].
  by apply no_reviews_queries.
Qed.

(** X8. Ties are broken by registration order: when every registered
    Restaurant has the same average, [top_two_restaurants()] returns the
    first two of [Restaurant.all], in that order. *)
Theorem top_two_all_tied (w : world) (k : spec_float) :
  Forall (is_restaurant w) (Restaurant_all w) ->
  Forall (fun r => Restaurant_average_star_rating w r = Ok k)
         (Restaurant_all w) ->
  Restaurant_top_two_restaurants w = Ok (take 2 (Restaurant_all w)).
Proof.
  intros Hr Hk. apply (top_two_constant w k).
  apply Forall_forall. intros r Hin. split.
  - exact (proj1 (Forall_forall _ _) Hr r Hin).
  - exact (proj1 (Forall_forall _ _) Hk r Hin).
Qed.

(** ** Relations between the queries *)

(** [any] over a condition that never raises. *)
Lemma anyR_existsb {A} (p : A -> result bool) (g : A -> bool) (l : list A) :
  Forall (fun x => p x = Ok (g x)) l ->
  anyR p l = Ok (existsb g l).
Proof.
  induction 1 as [|x l Hx _ IH]; [reflexivity|].
  cbn [anyR existsb]. rewrite Hx. cbn [mbind result_bind].
  destruct (g x); [reflexivity|exact IH].
Qed.

Lemma Customer_restaurants_elem (w : world) (self : addr) (l : list addr)
    (r : addr) :
  reviews_complete w ->
  Customer_restaurants w self = Ok l ->
  r ∈ l <-> exists a, a ∈ Review_all w /\ customer_of w a = Some self /\
                      restaurant_of w a = Some r.
Proof.
  intros Hw. unfold Customer_restaurants.
  rewrite (Customer_reviews_eq w self Hw). cbn [mbind result_bind].
  rewrite mapR_restaurant by (by apply complete_filter). cbn [mbind result_bind].
  intros [= <-].
  rewrite (proj2 (list_of_set_spec _)), list_elem_of_fmap. split.
  - intros (a & -> & Ha). apply list_elem_of_filter in Ha as [Hc Ha].
    exists a. repeat split; try assumption.
    destruct (proj1 (Forall_forall _ _) Hw a Ha) as (_ & [r Hr] & _).
    by rewrite Hr.
  - intros (a & Ha & Hc & Hr). exists a. split; [by rewrite Hr|].
    by apply list_elem_of_filter.
Qed.

Lemma Restaurant_customers_elem (w : world) (self : addr) (l : list addr)
    (c : addr) :
  reviews_complete w ->
  Restaurant_customers w self = Ok l ->
  c ∈ l <-> exists a, a ∈ Review_all w /\ restaurant_of w a = Some self /\
                      customer_of w a = Some c.
Proof.
  intros Hw. unfold Restaurant_customers.
  rewrite (Restaurant_reviews_eq w self Hw). cbn [mbind result_bind].
  rewrite mapR_customer by (by apply complete_filter). cbn [mbind result_bind].
  intros [= <-].
  rewrite (proj2 (list_of_set_spec _)), list_elem_of_fmap. split.
  - intros (a & -> & Ha). apply list_elem_of_filter in Ha as [Hr Ha].
    exists a. repeat split; try assumption.
    destruct (proj1 (Forall_forall _ _) Hw a Ha) as ([c Hc] & _ & _).
    by rewrite Hc.
  - intros (a & Ha & Hr & Hc). exists a. split; [by rewrite Hc|].
    by apply list_elem_of_filter.
Qed.

Lemma has_reviewed_eq (w : world) (self : addr) (v : pyval) :
  reviews_complete w ->
  Customer_has_reviewed_restaurant w self v =
    Ok (existsb (fun a => same_object (default O (restaurant_of w a)) v)
          (filter (fun a => customer_of w a = Some self) (Review_all w))).
Proof.
  intros Hw. unfold Customer_has_reviewed_restaurant.
  rewrite (Customer_reviews_eq w self Hw). cbn [mbind result_bind].
  apply anyR_existsb.
  eapply Forall_impl; [by apply complete_filter|].
  intros a (_ & [r Hr] & _). rewrite (Review_restaurant_of _ _ _ Hr), Hr.
  reflexivity.
Qed.

(** X9. [has_reviewed_restaurant(restaurant)] never raises on a registry of
    complete Reviews; it is true exactly when some registered Review links
    this Customer to that very Restaurant object, that is, exactly when
    the Restaurant is in [restaurants()]; for an argument that is not an
    object it is false. *)
Theorem has_reviewed_restaurant_iff (w : world) (self : addr) :
  reviews_complete w ->
  (forall r, exists b,
     Customer_has_reviewed_restaurant w self (VRef r) = Ok b /\
     (b = true <->
      exists a, a ∈ Review_all w /\ customer_of w a = Some self /\
                restaurant_of w a = Some r) /\
     (forall l, Customer_restaurants w self = Ok l -> (b = true <-> r ∈ l))) /\
  (forall v, (forall r, v <> VRef r) ->
     Customer_has_reviewed_restaurant w self v = Ok false).
Proof.
  intros Hw. split.
  - intros r. eexists. split; [by apply has_reviewed_eq|].
    assert (Hiff : existsb
              (fun a => same_object (default O (restaurant_of w a)) (VRef r))
              (filter (fun a => customer_of w a = Some self) (Review_all w))
              = true <->
            exists a, a ∈ Review_all w /\ customer_of w a = Some self /\
                      restaurant_of w a = Some r).
    { rewrite existsb_exists. split.
      - intros (a & Ha & Hsame). apply list_elem_of_In in Ha.
        apply list_elem_of_filter in Ha as [Hc Ha].
        exists a. repeat split; try assumption.
        destruct (proj1 (Forall_forall _ _) Hw a Ha) as (_ & [r' Hr'] & _).
        rewrite Hr' in Hsame |- *. cbn in Hsame.
        apply bool_decide_eq_true in Hsame. by subst.
      - intros (a & Ha & Hc & Hr). exists a. split.
        + apply list_elem_of_In. by apply list_elem_of_filter.
        + rewrite Hr. cbn. by apply bool_decide_eq_true. }
    split; [exact Hiff|].
    intros l Hl. rewrite Hiff.
    symmetry. by apply Customer_restaurants_elem.
  - intros v Hv. rewrite has_reviewed_eq by exact Hw. f_equal.
    apply not_true_is_false. rewrite existsb_exists.
    intros (a & _ & Hsame). destruct v; try discriminate.
    by eapply Hv.
Qed.

(** X10. The relation is symmetric: a Restaurant is in [restaurants()] of a
    Customer exactly when that Customer is in [customers()] of the
    Restaurant. *)
Theorem restaurants_customers_symmetric (w : world) (c r : addr)
    (lr lc : list addr) :
  reviews_complete w ->
  Customer_restaurants w c = Ok lr ->
  Restaurant_customers w r = Ok lc ->
  r ∈ lr <-> c ∈ lc.
Proof.
  intros Hw Hlr Hlc.
  rewrite (Customer_restaurants_elem w c lr r Hw Hlr).
  rewrite (Restaurant_customers_elem w r lc c Hw Hlc).
  split; intros (a & Ha & H1 & H2); exists a; auto.
Qed.

(** ** Incomplete Reviews in the registry *)

Lemma Review_customer_unset (w : world) (a : addr) :
  customer_of w a = None -> Review.customer w a = Raise AttributeError.
Proof.
  unfold customer_of, Review.customer, Review.self_obj.
  destruct (heap w !! a) as [[| |v]|]; try reflexivity.
  cbn. by intros ->.
Qed.

Lemma Review_restaurant_unset (w : world) (a : addr) :
  restaurant_of w a = None -> Review.restaurant w a = Raise AttributeError.
Proof.
  unfold restaurant_of, Review.restaurant, Review.self_obj.
  destruct (heap w !! a) as [[| |v]|]; try reflexivity.
  cbn. by intros ->.
Qed.

(** A comprehension raises when its condition raises on some element and
    can raise nothing else. *)
Lemma filterR_raises {A} (p : A -> result bool) (l : list A) :
  Forall (fun x => (exists b, p x = Ok b) \/ p x = Raise AttributeError) l ->
  Exists (fun x => p x = Raise AttributeError) l ->
  filterR p l = Raise AttributeError.
Proof.
  induction 1 as [|x l Hx _ IH]; intros Hex; [by apply Exists_nil in Hex|].
  cbn [filterR]. destruct Hx as [[b Hb]| ->]; [|reflexivity].
  rewrite Hb. cbn [mbind result_bind].
  apply Exists_cons in Hex as [Hex|Hex]; [congruence|].
  by rewrite (IH Hex).
Qed.

(** X11. [reviews()] reads the customer (the restaurant) of every Review in
    [Review.all], whoever asks: it returns when all of them have one, and
    raises [AttributeError] as soon as a single registered Review has
    none, also for a Customer (a Restaurant) that Review is not about. *)
Theorem reviews_raise_on_incomplete_registry (w : world) (self : addr) :
  (Forall (fun a => is_Some (customer_of w a)) (Review_all w) ->
   Customer_reviews w self =
     Ok (filter (fun a => customer_of w a = Some self) (Review_all w))) /\
  (Exists (fun a => customer_of w a = None) (Review_all w) ->
   Customer_reviews w self = Raise AttributeError) /\
  (Forall (fun a => is_Some (restaurant_of w a)) (Review_all w) ->
   Restaurant_reviews w self =
     Ok (filter (fun a => restaurant_of w a = Some self) (Review_all w))) /\
  (Exists (fun a => restaurant_of w a = None) (Review_all w) ->
   Restaurant_reviews w self = Raise AttributeError).
Proof.
  split; [|split; [|split]].
  - intros H. apply filterR_filter.
    eapply Forall_impl; [exact H|]. intros a [c Hc].
    rewrite (Review_customer_of _ _ _ Hc), Hc. cbn. f_equal.
    apply bool_decide_ext. split; congruence.
  - intros H. apply filterR_raises.
    + apply Forall_forall. intros a _.
      destruct (customer_of w a) as [c|] eqn:Hc.
      * left. rewrite (Review_customer_of _ _ _ Hc). by eexists.
      * right. by rewrite (Review_customer_unset _ _ Hc).
    + eapply Exists_impl; [exact H|]. intros a Hc.
      by rewrite (Review_customer_unset _ _ Hc).
  - intros H. apply filterR_filter.
    eapply Forall_impl; [exact H|]. intros a [r Hr].
    rewrite (Review_restaurant_of _ _ _ Hr), Hr. cbn. f_equal.
    apply bool_decide_ext. split; congruence.
  - intros H. apply filterR_raises.
    + apply Forall_forall. intros a _.
      destruct (restaurant_of w a) as [r|] eqn:Hr.
      * left. rewrite (Review_restaurant_of _ _ _ Hr). by eexists.
      * right. by rewrite (Review_restaurant_unset _ _ Hr).
    + eapply Exists_impl; [exact H|]. intros a Hr.
      by rewrite (Review_restaurant_unset _ _ Hr).
Qed.

(** X12. [num_negative_reviews()] is never more than the number of the
    Customer's reviews, and it is 0 exactly when none of them is rated 1
    or 2. *)
Theorem num_negative_reviews_bounds (w : world) (self : addr) :
  reviews_complete w ->
  exists n rs,
    Customer_num_negative_reviews w self = Ok n /\
    Customer_reviews w self = Ok rs /\
    0 <= n <= Z.of_nat (length rs) /\
    (n = 0 <-> Forall (fun a => ~ rating_at_most w 2 a) rs).
Proof.
  intros Hw. unfold Customer_num_negative_reviews.
  rewrite (Customer_reviews_eq w self Hw). cbn [mbind result_bind].
  set (rs := filter (fun a => customer_of w a = Some self) (Review_all w)).
  rewrite (filterR_filter _ (rating_at_most w 2)).
  - cbn [mbind result_bind]. eexists _, rs.
    split; [reflexivity|]. split; [reflexivity|].
    pose proof (length_filter (rating_at_most w 2) rs) as Hle.
    split; [lia|].
    split.
    + intros H0. apply Forall_forall. intros a Ha Hneg.
      assert (Hin : a ∈ filter (rating_at_most w 2) rs)
        by (by apply list_elem_of_filter).
      destruct (filter (rating_at_most w 2) rs); [by apply not_elem_of_nil in Hin|].
      cbn [length] in H0. lia.
    + intros Hall.
      destruct (filter (rating_at_most w 2) rs) as [|a l] eqn:E; [reflexivity|].
      assert (Hin : a ∈ filter (rating_at_most w 2) rs)
        by (rewrite E; apply list_elem_of_here).
      apply list_elem_of_filter in Hin as [Hneg Hin].
      by destruct (proj1 (Forall_forall _ _) Hall a Hin).
  - eapply Forall_impl; [apply complete_filter, Hw|].
    intros a (_ & _ & [k Hk]). rewrite (Review_rating_of _ _ _ Hk).
    cbn [mbind result_bind]. f_equal. unfold rating_at_most.
    apply eq_true_iff_eq. rewrite bool_decide_eq_true, Hk.
    apply Z.leb_le.
Qed.

(** ** What the constructors leave alone *)

(** X13. [Customer(...)] and [Restaurant(...)], with any arguments at all,
    return an object that did not exist before, keep every existing object
    as it is, append the new object to their own registry and leave the
    two other registries untouched. *)
Theorem constructors_allocate_fresh (w : world) (first last name : pyval) :
  (exists self w',
     Customer.init first last w = (Ok self, w') /\
     heap w !! self = None /\
     (forall a o, heap w !! a = Some o -> heap w' !! a = Some o) /\
     Customer_all w' = Customer_all w ++ [self] /\
     Restaurant_all w' = Restaurant_all w /\
     Review_all w' = Review_all w) /\
  (exists self w',
     Restaurant.init name w = (Ok self, w') /\
     heap w !! self = None /\
     (forall a o, heap w !! a = Some o -> heap w' !! a = Some o) /\
     Restaurant_all w' = Restaurant_all w ++ [self] /\
     Customer_all w' = Customer_all w /\
     Review_all w' = Review_all w).
Proof.
  split; eexists _, _;
    (split; [first [apply Customer_init_eq | apply Restaurant_init_eq]|]);
    cbn [heap Customer_all Restaurant_all Review_all];
    (split; [by apply lookup_ge_None_2|]);
    (split; [|auto]); intros a o H; by apply lookup_app_l_Some.
Qed.

(** X14. [Review(...)] raises [AttributeError] for every triple of
    arguments, valid or not, and the failed call changes nothing a program
    can see: the three registries and every existing object are as
    before. *)
Theorem Review_never_constructs (w : world) (customer restaurant rating : pyval) :
  fst (Review.init customer restaurant rating w) = Raise AttributeError /\
  (forall a o, heap w !! a = Some o ->
     heap (snd (Review.init customer restaurant rating w)) !! a = Some o) /\
  Customer_all (snd (Review.init customer restaurant rating w)) = Customer_all w /\
  Restaurant_all (snd (Review.init customer restaurant rating w))
    = Restaurant_all w /\
  Review_all (snd (Review.init customer restaurant rating w)) = Review_all w.
Proof.
  rewrite Review_init_eq. cbn [fst snd heap set_heap Customer_all
    Restaurant_all Review_all].
  repeat split. intros a o H. by apply lookup_app_l_Some.
Qed.

(** ** Reassigning the customer of a registered Review *)

Lemma set_customer_heap (w : world) (self : addr) (v : ReviewObj) (c : addr) :
  heap w !! self = Some (OReview v) -> is_customer w c ->
  snd (Review.set_customer self (VRef c) w) =
    set_heap (<[self := OReview {| _customer := Some c;
                                   _restaurant := _restaurant v;
                                   _rating := _rating v |}]> (heap w)) w.
Proof.
  intros Hself [o Ho]. rewrite (set_customer_eq w self v _ Hself).
  cbn [isinstance_Customer snd ref_value]. by rewrite Ho.
Qed.

(** X15. Assigning another Customer to the [customer] of a registered
    Review moves the Review: afterwards it is in [reviews()] of the new
    Customer and of no other, and the other Reviews are where they were. *)
Theorem customer_reassignment_moves_review (w : world) (self c : addr) :
  reviews_complete w ->
  self ∈ Review_all w ->
  is_customer w c ->
  let w' := snd (Review.set_customer self (VRef c) w) in
  forall c', exists l,
    Customer_reviews w' c' = Ok l /\
    (self ∈ l <-> c' = c) /\
    (forall a, a <> self ->
       (a ∈ l <-> a ∈ Review_all w /\ customer_of w a = Some c')).
Proof.
  intros Hw Hin Hc. cbn zeta.
  destruct (proj1 (Forall_forall _ _) Hw self Hin) as ([c0 Hc0] & Hr0 & Hk0).
  assert (Hself : exists v, heap w !! self = Some (OReview v)).
  { unfold customer_of in Hc0.
    destruct (heap w !! self) as [[| |v]|]; try discriminate. by exists v. }
  destruct Hself as [v Hv].
  rewrite (set_customer_heap w self v c Hv Hc).
  set (w' := set_heap _ w).
  assert (Hcust : forall a, customer_of w' a =
                    if decide (a = self) then Some c else customer_of w a).
  { intros a. unfold customer_of. cbn [heap w' set_heap].
    destruct (decide (a = self)) as [->|Hne].
    - by rewrite (lookup_store_eq _ _ _ _ Hv).
    - by rewrite list_lookup_insert_ne. }
  assert (Hrest : forall a, restaurant_of w' a = restaurant_of w a).
  { intros a. unfold restaurant_of. cbn [heap w' set_heap].
    destruct (decide (a = self)) as [->|Hne].
    - by rewrite (lookup_store_eq _ _ _ _ Hv), Hv.
    - by rewrite list_lookup_insert_ne. }
  assert (Hrat : forall a, rating_of w' a = rating_of w a).
  { intros a. unfold rating_of. cbn [heap w' set_heap].
    destruct (decide (a = self)) as [->|Hne].
    - by rewrite (lookup_store_eq _ _ _ _ Hv), Hv.
    - by rewrite list_lookup_insert_ne. }
  assert (Hw' : reviews_complete w').
  { unfold reviews_complete. cbn [Review_all w' set_heap].
    eapply Forall_impl; [exact Hw|]. intros a (H1 & H2 & H3).
    unfold complete_review. rewrite Hcust, Hrest, Hrat.
    destruct (decide (a = self)); auto. }
  intros c'. eexists. split; [apply (Customer_reviews_eq w' c' Hw')|].
  cbn [Review_all w' set_heap]. split.
  - rewrite list_elem_of_filter, Hcust. rewrite decide_True by reflexivity.
    split; [intros [[= ->] _]; reflexivity|intros ->; auto].
  - intros a Hne. rewrite list_elem_of_filter, Hcust.
    rewrite decide_False by exact Hne. tauto.
Qed.

(** ** The range of [average_star_rating] *)

(** The ratings of the Reviews of a Restaurant, in registry order. *)
Lemma ratings_valid (w : world) (self : addr) :
  Forall (fun a => rating_ok (rating_of w a)) (Review_all w) ->
  Forall (fun k => 1 <= k <= 5)
    ((fun a => default 0 (rating_of w a)) <$>
     filter (fun a => restaurant_of w a = Some self) (Review_all w)) \/
  exists a, a ∈ Review_all w /\ rating_of w a = None.
Proof.
  intros H.
  destruct (decide (Exists (fun a => rating_of w a = None) (Review_all w)))
    as [Hex|Hall].
  - right. apply Exists_exists in Hex as (a & Ha & Hn). eauto.
  - left. apply Forall_fmap, Forall_forall. intros a Ha.
    apply list_elem_of_filter in Ha as [_ Ha].
    pose proof (proj1 (Forall_forall _ _) H a Ha) as Hok. cbn beta in Hok.
    unfold compose.
    destruct (rating_of w a) as [k|] eqn:E; [exact Hok|].
    exfalso. apply Hall, Exists_exists. eauto.
Qed.

Lemma average_of_valid_ratings (w : world) (self : addr) :
  reviews_complete w ->
  Forall (fun a => rating_ok (rating_of w a)) (Review_all w) ->
  Z.of_nat (length (Review_all w)) <= 10 ^ 14 ->
  Restaurant_average_star_rating w self = Ok (S754_zero false) \/
  exists d, 10 <= d <= 50 /\
    Restaurant_average_star_rating w self = float_of_tenths false d.
Proof.
  intros Hw Hvalid Hlen. rewrite (average_star_rating_eq w self Hw).
  destruct (ratings_valid w self Hvalid) as [Hr|(a & Ha & Hn)].
  - pose proof (length_filter (fun a => restaurant_of w a = Some self)
                  (Review_all w)) as Hle.
    revert Hr.
    assert (Hl : Z.of_nat (length ((fun a => default 0 (rating_of w a)) <$>
                  filter (fun a => restaurant_of w a = Some self)
                         (Review_all w))) <= 10 ^ 14)
      by (rewrite length_fmap; lia).
    revert Hl. generalize ((fun a => default 0 (rating_of w a)) <$>
                  filter (fun a => restaurant_of w a = Some self) (Review_all w)).
    intros ratings Hl Hr. destruct ratings as [|k ks]; [by left|right].
    cbv zeta.
    pose proof (py_sum_bounds (k :: ks) Hr) as Hsum.
    destruct (round1_of_mean (py_sum (k :: ks)) (Z.of_nat (length (k :: ks))))
      as (d & Hd & _ & Hround); [cbn [length]; lia|exact Hsum|exact Hl|].
    exists d. split; [exact Hd|exact Hround].
  - destruct (proj1 (Forall_forall _ _) Hw a Ha) as (_ & _ & [k Hk]).
    congruence.
Qed.

(** Every tenth from 1.0 to 5.0 is a float between the floats 1.0 and
    5.0. *)
Lemma float_of_tenths_range (d : Z) :
  10 <= d <= 50 ->
  exists f, float_of_tenths false d = Ok f /\
            float_lt f float_1_0 = false /\ float_lt float_5_0 f = false.
Proof.
  intros Hd.
  assert (Hall : forallb (fun d =>
            match float_of_tenths false d with
            | Ok f => negb (float_lt f float_1_0) && negb (float_lt float_5_0 f)
            | Raise _ => false
            end) (seqZ 10 41) = true) by (vm_compute; reflexivity).
  rewrite forallb_forall in Hall.
  specialize (Hall d). rewrite <- list_elem_of_In, elem_of_seqZ in Hall.
  specialize (Hall ltac:(lia)).
  destruct (float_of_tenths false d) as [f|]; [|discriminate].
  exists f. apply andb_true_iff in Hall as [H1 H2].
  apply negb_true_iff in H1, H2. auto.
Qed.

(** X16. On a registry of complete Reviews with ratings from 1 to 5 (at
    most [10 ^ 14] of them), [average_star_rating()] never raises, and its
    result is 0.0 or a float from 1.0 to 5.0. *)
Theorem average_star_rating_range (w : world) (self : addr) :
  reviews_complete w ->
  Forall (fun a => rating_ok (rating_of w a)) (Review_all w) ->
  Z.of_nat (length (Review_all w)) <= 10 ^ 14 ->
  exists f,
    Restaurant_average_star_rating w self = Ok f /\
    (f = S754_zero false \/
     (float_lt f float_1_0 = false /\ float_lt float_5_0 f = false)).
Proof.
  intros Hw Hvalid Hlen.
  destruct (average_of_valid_ratings w self Hw Hvalid Hlen)
    as [H0|(d & Hd & Hav)].
  - exists (S754_zero false). auto.
  - destruct (float_of_tenths_range d Hd) as (f & Hf & Hrange).
    exists f. rewrite Hav. auto.
Qed.

Lemma py_sum_constant (k : Z) (l : list Z) :
  Forall (fun x => x = k) l -> py_sum l = k * Z.of_nat (length l).
Proof.
  unfold py_sum. intros Hl.
  assert (G : forall acc, foldl Z.add acc l = acc + k * Z.of_nat (length l)).
  { induction Hl as [|x l -> _ IH]; intros acc; cbn [foldl length]; [lia|].
    rewrite IH. lia. }
  rewrite G. lia.
Qed.

(** X17. When every Review of a Restaurant carries the same rating [k]
    (from 1 to 5), [average_star_rating()] is exactly the float [k]. *)
Theorem average_of_equal_ratings (w : world) (self : addr) (k : Z) :
  reviews_complete w ->
  1 <= k <= 5 ->
  filter (fun a => restaurant_of w a = Some self) (Review_all w) <> [] ->
  Forall (fun a => rating_of w a = Some k)
         (filter (fun a => restaurant_of w a = Some self) (Review_all w)) ->
  Z.of_nat (length (Review_all w)) <= 10 ^ 14 ->
  Restaurant_average_star_rating w self = Ok (float_of_star k).
Proof.
  intros Hw Hk Hne Hall Hlen. rewrite (average_star_rating_eq w self Hw).
  pose proof (length_filter (fun a => restaurant_of w a = Some self)
                (Review_all w)) as Hle.
  assert (Hconst : Forall (fun x => x = k)
            ((fun a => default 0 (rating_of w a)) <$>
             filter (fun a => restaurant_of w a = Some self) (Review_all w))).
  { apply Forall_fmap. eapply Forall_impl; [exact Hall|].
    intros a Ha. cbn. by rewrite Ha. }
  assert (Hl : (0 < length ((fun a => default 0%Z (rating_of w a)) <$>
             filter (fun a => restaurant_of w a = Some self) (Review_all w))
             <= length (Review_all w))%nat).
  { rewrite length_fmap. split; [|exact Hle].
    destruct (filter _ (Review_all w)); [congruence|cbn [length]; lia]. }
  revert Hconst Hl.
  generalize ((fun a => default 0 (rating_of w a)) <$>
              filter (fun a => restaurant_of w a = Some self) (Review_all w)).
  intros ratings Hconst Hl.
  destruct ratings as [|k0 ks]; [cbn [length] in Hl; lia|]. cbv zeta.
  pose proof (py_sum_constant k (k0 :: ks) Hconst) as Hsum.
  set (n := Z.of_nat (length (k0 :: ks))) in *.
  assert (Hn : 0 < n <= 10 ^ 14) by lia.
  destruct (round1_of_mean (py_sum (k0 :: ks)) n)
    as (d & Hd & Hnear & Hround); [lia|nia|lia|].
  rewrite Hround. assert (d = 10 * k) as -> by nia.
  assert (Hk' : k = 1 \/ k = 2 \/ k = 3 \/ k = 4 \/ k = 5) by lia.
  destruct Hk' as [-> | [-> | [-> | [-> | ->]]]]; reflexivity.
Qed.

(** ** What [top_two_restaurants] returns *)

(** X18. On a registry of complete Reviews with ratings from 1 to 5 (at
    most [10 ^ 14] of them) and a [Restaurant.all] of Restaurants,
    [top_two_restaurants()] never raises: it returns two registered
    Restaurants, or all of them when there are fewer than two. *)
Theorem top_two_returns_on_valid_data (w : world) :
  reviews_complete w ->
  Forall (fun a => rating_ok (rating_of w a)) (Review_all w) ->
  Z.of_nat (length (Review_all w)) <= 10 ^ 14 ->
  Forall (is_restaurant w) (Restaurant_all w) ->
  exists l,
    Restaurant_top_two_restaurants w = Ok l /\
    length l = Nat.min 2 (length (Restaurant_all w)) /\
    forall x, x ∈ l -> x ∈ Restaurant_all w.
Proof.
  intros Hw Hvalid Hlen Hrest.
  assert (Hkeys : Forall (fun r => is_restaurant w r /\
                    exists k, Restaurant_average_star_rating w r = Ok k)
                         (Restaurant_all w)).
  { eapply Forall_impl; [exact Hrest|]. intros r Hr. split; [exact Hr|].
    destruct (average_of_valid_ratings w r Hw Hvalid Hlen)
      as [H0|(d & Hd & Hav)]; [eauto|].
    destruct (float_of_tenths_range d Hd) as (f & Hf & _).
    exists f. by rewrite Hav. }
  destruct (sorted_reverse_by_key float_lt not_nan (average_of w)
              float_lt_asym float_lt_neg_trans (Restaurant_all w))
    as (Hperm & _ & _).
  { eapply Forall_impl; [exact Hkeys|]. intros r [_ [k Hk]].
    unfold average_of. rewrite Hk. by apply average_not_nan in Hk. }
  eexists. split; [by apply top_two_keys|].
  split; [by rewrite length_take, Hperm|].
  intros x Hx. rewrite <- Hperm. exact (subseteq_take 2 _ x Hx).
Qed.

(** X19. The Restaurants that [top_two_restaurants()] returns are the best:
    none of the Restaurants left out has a greater average than one that
    is returned, and no Restaurant at all has a greater average than the
    first one returned. *)
Theorem top_two_are_the_best (w : world) (l : list addr) :
  Forall (fun r => is_restaurant w r /\
                   exists k, Restaurant_average_star_rating w r = Ok k)
         (Restaurant_all w) ->
  Restaurant_top_two_restaurants w = Ok l ->
  (forall x r, x ∈ l -> r ∈ Restaurant_all w -> r ∉ l ->
     float_lt (average_of w x) (average_of w r) = false) /\
  (forall a rest r, l = a :: rest -> r ∈ Restaurant_all w ->
     float_lt (average_of w a) (average_of w r) = false).
Proof.
  intros Hkeys Htop.
  assert (Hnan : Forall (fun r => not_nan (average_of w r)) (Restaurant_all w)).
  { eapply Forall_impl; [exact Hkeys|]. intros r [_ [k Hk]].
    unfold average_of. rewrite Hk. by apply average_not_nan in Hk. }
  destruct (sorted_reverse_by_key float_lt not_nan (average_of w)
              float_lt_asym float_lt_neg_trans (Restaurant_all w) Hnan)
    as (Hperm & Hsorted & _).
  rewrite (top_two_keys w Hkeys) in Htop. injection Htop as <-.
  revert Hperm Hsorted.
  generalize (snd <$> sorted_reverse float_lt
                (with_key (average_of w) <$> Restaurant_all w)).
  intros L Hperm Hsorted. split.
  - intros x r Hx Hr Hnot. rewrite <- Hperm in Hr.
    rewrite <- (take_drop 2 L) in Hr, Hsorted.
    apply elem_of_app in Hr as [Hr|Hr]; [contradiction|].
    exact (StronglySorted_app_1_elem_of _ _ _ _ _ Hsorted Hx Hr).
  - intros a rest r Hl Hr. rewrite <- Hperm in Hr.
    destruct L as [|a' L']; [discriminate|].
    assert (a' = a) as -> by (cbn in Hl; congruence).
    apply StronglySorted_inv in Hsorted as [_ Hhd].
    apply elem_of_cons in Hr as [->|Hr].
    + assert (Ha : not_nan (average_of w a)).
      { apply (proj1 (Forall_forall _ _) Hnan). rewrite <- Hperm.
        apply list_elem_of_here. }
      destruct (float_lt (average_of w a) (average_of w a)) eqn:E;
        [|reflexivity].
      by rewrite (float_lt_asym _ _ Ha Ha E) in E.
    + exact (proj1 (Forall_forall _ _) Hhd r Hr).
Qed.

(** ** The properties at the sample worlds *)

Lemma two_restaurants_reachable : reachable two_restaurants.
Proof. apply reach_Restaurant, reach_Restaurant, reach_Customer, reach_start. Qed.

Lemma one_review_complete : reviews_complete one_review.
Proof. repeat constructor; by eexists. Qed.

Lemma bistro_ratings_ok :
  Forall (fun a => rating_ok (rating_of bistro a)) (Review_all bistro).
Proof. repeat constructor; cbn; lia. Qed.

Lemma bistro_restaurants : Forall (is_restaurant bistro) (Restaurant_all bistro).
Proof. repeat constructor; by eexists. Qed.

Lemma bistro_keys :
  Forall (fun r => is_restaurant bistro r /\
                   exists k, Restaurant_average_star_rating bistro r = Ok k)
         (Restaurant_all bistro).
Proof. repeat constructor; try (by eexists); eexists; vm_compute; reflexivity. Qed.

Lemma name_assignment_replaces_witness :
  (1 <= String.length "Grace" <= 25)%nat /\
  Customer.first_name
    (snd (Customer.set_first_name 0%nat (VStr "Grace") ada_and_luigi)) 0%nat
    = Ok "Grace"%string /\
  Restaurant.name
    (snd (Restaurant.set_name 1%nat (VStr "Grace") ada_and_luigi)) 1%nat
    = Ok "Grace"%string.
Proof.
  assert (Hlen : (1 <= String.length "Grace" <= 25)%nat) by (cbn; lia).
  split; [exact Hlen|].
  destruct (name_assignment_replaces ada_and_luigi 0%nat "Grace" Hlen)
    as [Hc _].
  destruct (name_assignment_replaces ada_and_luigi 1%nat "Grace" Hlen)
    as [_ Hr].
  split.
  - destruct Hc as [(_ & H & _) _]; [by eexists|exact H].
  - destruct Hr as (_ & H & _); [by eexists|exact H].
Defined.

Lemma invalid_name_assignment_ignored_witness :
  valid_name (VInt 7) = false /\
  Customer.set_first_name 0%nat (VInt 7) ada_and_luigi = (Ok tt, ada_and_luigi) /\
  Restaurant.set_name 1%nat (VInt 7) ada_and_luigi = (Ok tt, ada_and_luigi).
Proof.
  split; [reflexivity|].
  destruct (invalid_name_assignment_ignored ada_and_luigi 0%nat (VInt 7) eq_refl)
    as [Hc _].
  destruct (invalid_name_assignment_ignored ada_and_luigi 1%nat (VInt 7) eq_refl)
    as [_ Hr].
  split.
  - destruct Hc as [H _]; [by eexists|exact H].
  - apply Hr. by eexists.
Defined.

Lemma first_rating_assignment_witness :
  heap unrated !! 2%nat
    = Some (OReview {| _customer := Some 0%nat; _restaurant := Some 1%nat;
                       _rating := None |}) /\
  Review.rating (snd (Review.set_rating 2%nat (VBool true) unrated)) 2%nat = Ok 1 /\
  Review.set_rating 2%nat (VInt 6) unrated = (Ok tt, unrated) /\
  Review.set_rating 2%nat (VFloat float_3_0) unrated = (Ok tt, unrated).
Proof.
  split; [reflexivity|].
  pose proof (first_rating_assignment unrated 2%nat _ (VBool true) eq_refl eq_refl)
    as [Hset _].
  pose proof (first_rating_assignment unrated 2%nat _ (VInt 6) eq_refl eq_refl)
    as [_ Hbig].
  pose proof (first_rating_assignment unrated 2%nat _ (VFloat float_3_0)
                eq_refl eq_refl) as [_ Hfloat].
  split; [|split].
  - destruct Hset as (_ & H & _); [reflexivity|cbn; lia|exact H].
  - apply Hbig. right. right. cbn. lia.
  - apply Hfloat. left. reflexivity.
Defined.

Lemma customer_assignment_witness :
  heap bistro !! 7%nat = Some (review 1%nat 3%nat 3) /\
  Review.customer (snd (Review.set_customer 7%nat (VRef 0%nat) bistro)) 7%nat
    = Ok 0%nat /\
  Review.set_customer 7%nat (VRef 2%nat) bistro = (Ok tt, bistro).
Proof.
  split; [reflexivity|].
  pose proof (customer_assignment bistro 7%nat _ (VRef 0%nat) eq_refl) as [H1 _].
  pose proof (customer_assignment bistro 7%nat _ (VRef 2%nat) eq_refl) as [_ H2].
  split.
  - destruct H1 as (_ & H & _); [reflexivity|exact H].
  - apply H2. reflexivity.
Defined.

Lemma reachable_attributes_valid_witness :
  reachable two_restaurants /\
  Restaurant.name two_restaurants 2%nat = Ok "Mario's"%string /\
  (1 <= String.length "Mario's" <= 25)%nat.
Proof.
  split; [exact two_restaurants_reachable|]. split; [reflexivity|].
  destruct (reachable_attributes_valid two_restaurants 2%nat
              two_restaurants_reachable) as (_ & _ & H & _).
  apply H. reflexivity.
Defined.

Lemma reachable_registries_wf_witness :
  reachable two_restaurants /\
  NoDup (Restaurant_all two_restaurants) /\
  Forall (is_restaurant two_restaurants) (Restaurant_all two_restaurants).
Proof.
  split; [exact two_restaurants_reachable|].
  destruct (reachable_registries_wf two_restaurants two_restaurants_reachable)
    as (_ & _ & H1 & H2).
  auto.
Defined.

Lemma reachable_has_no_reviews_witness :
  reachable two_restaurants /\
  Review_all two_restaurants = [] /\
  Restaurant_top_two_restaurants two_restaurants
    = Ok (take 2 (Restaurant_all two_restaurants)).
Proof.
  split; [exact two_restaurants_reachable|].
  destruct (reachable_has_no_reviews two_restaurants two_restaurants_reachable)
    as (H1 & _ & H2).
  auto.
Defined.

Lemma top_two_all_tied_witness :
  Forall (is_restaurant two_restaurants) (Restaurant_all two_restaurants) /\
  Restaurant_top_two_restaurants two_restaurants = Ok [1; 2]%nat.
Proof.
  assert (Hr : Forall (is_restaurant two_restaurants)
                      (Restaurant_all two_restaurants))
    by (repeat constructor; by eexists).
  split; [exact Hr|].
  apply (top_two_all_tied two_restaurants (S754_zero false) Hr).
  repeat constructor.
Defined.

Lemma has_reviewed_restaurant_iff_witness :
  reviews_complete bistro /\
  Customer_has_reviewed_restaurant bistro 0%nat (VRef 2%nat) = Ok true /\
  Customer_has_reviewed_restaurant bistro 0%nat (VRef 3%nat) = Ok false /\
  Customer_has_reviewed_restaurant bistro 0%nat VNone = Ok false.
Proof.
  split; [exact bistro_complete|].
  destruct (has_reviewed_restaurant_iff bistro 0%nat bistro_complete)
    as [Hobj Hother].
  split; [|split].
  - destruct (Hobj 2%nat) as (b & -> & Hiff & _). f_equal. apply Hiff.
    exists 5%nat. repeat split. repeat constructor.
  - destruct (Hobj 3%nat) as (b & Hb & _). pose proof Hb as Hb'.
    vm_compute in Hb'. injection Hb' as <-. exact Hb.
  - apply Hother. discriminate.
Defined.

Lemma restaurants_customers_symmetric_witness :
  reviews_complete bistro /\
  exists lr lc,
    Customer_restaurants bistro 1%nat = Ok lr /\
    Restaurant_customers bistro 3%nat = Ok lc /\
    (3%nat ∈ lr <-> 1%nat ∈ lc).
Proof.
  split; [exact bistro_complete|].
  eexists _, _. split; [reflexivity|]. split; [reflexivity|].
  by apply (restaurants_customers_symmetric bistro 1%nat 3%nat _ _ bistro_complete).
Defined.

Lemma reviews_raise_on_incomplete_registry_witness :
  Exists (fun a => customer_of orphan a = None) (Review_all orphan) /\
  Customer_reviews orphan 0%nat = Raise AttributeError /\
  Restaurant_reviews orphan 1%nat = Ok [2; 3]%nat.
Proof.
  assert (Hex : Exists (fun a => customer_of orphan a = None) (Review_all orphan))
    by (apply Exists_cons_tl, Exists_cons_hd; reflexivity).
  split; [exact Hex|].
  destruct (reviews_raise_on_incomplete_registry orphan 0%nat) as (_ & Hc & _).
  destruct (reviews_raise_on_incomplete_registry orphan 1%nat) as (_ & _ & Hr & _).
  split; [exact (Hc Hex)|].
  rewrite Hr; [reflexivity|]. repeat constructor; by eexists.
Defined.

Lemma num_negative_reviews_bounds_witness :
  reviews_complete critic /\
  exists n rs,
    Customer_num_negative_reviews critic 0%nat = Ok n /\
    Customer_reviews critic 0%nat = Ok rs /\
    0 <= n <= Z.of_nat (length rs).
Proof.
  split; [exact critic_complete|].
  destruct (num_negative_reviews_bounds critic 0%nat critic_complete)
    as (n & rs & H1 & H2 & H3 & _).
  eauto.
Defined.

Lemma customer_reassignment_moves_review_witness :
  reviews_complete bistro /\ 7%nat ∈ Review_all bistro /\
  is_customer bistro 0%nat /\
  exists l,
    Customer_reviews (snd (Review.set_customer 7%nat (VRef 0%nat) bistro)) 1%nat
      = Ok l /\
    7%nat ∉ l.
Proof.
  assert (Hin : 7%nat ∈ Review_all bistro) by (repeat constructor).
  assert (Hc : is_customer bistro 0%nat) by (by eexists).
  split; [exact bistro_complete|]. split; [exact Hin|]. split; [exact Hc|].
  destruct (customer_reassignment_moves_review bistro 7%nat 0%nat
              bistro_complete Hin Hc 1%nat) as (l & Hl & Hiff & _).
  exists l. split; [exact Hl|]. intros H. apply Hiff in H. discriminate.
Defined.

Lemma average_star_rating_range_witness :
  reviews_complete bistro /\
  exists f,
    Restaurant_average_star_rating bistro 2%nat = Ok f /\
    (f = S754_zero false \/
     (float_lt f float_1_0 = false /\ float_lt float_5_0 f = false)).
Proof.
  split; [exact bistro_complete|].
  apply (average_star_rating_range bistro 2%nat bistro_complete bistro_ratings_ok).
  vm_compute. discriminate.
Defined.

Lemma average_of_equal_ratings_witness :
  reviews_complete one_review /\
  Restaurant_average_star_rating one_review 1%nat = Ok float_4_0.
Proof.
  split; [exact one_review_complete|].
  apply (average_of_equal_ratings one_review 1%nat 4 one_review_complete).
  - lia.
  - discriminate.
  - repeat constructor.
  - vm_compute. discriminate.
Defined.

Lemma top_two_returns_on_valid_data_witness :
  reviews_complete bistro /\
  exists l, Restaurant_top_two_restaurants bistro = Ok l /\
            length l = Nat.min 2 (length (Restaurant_all bistro)).
Proof.
  split; [exact bistro_complete|].
  destruct (top_two_returns_on_valid_data bistro bistro_complete
              bistro_ratings_ok ltac:(vm_compute; discriminate)
              bistro_restaurants) as (l & H1 & H2 & _).
  eauto.
Defined.

Lemma top_two_are_the_best_witness :
  Restaurant_top_two_restaurants bistro = Ok [4; 2]%nat /\
  float_lt (average_of bistro 4%nat) (average_of bistro 3%nat) = false /\
  float_lt (average_of bistro 2%nat) (average_of bistro 3%nat) = false.
Proof.
  assert (Htop : Restaurant_top_two_restaurants bistro = Ok [4; 2]%nat)
    by reflexivity.
  split; [exact Htop|].
  destruct (top_two_are_the_best bistro _ bistro_keys Htop) as [Hbest _].
  split; apply Hbest; try (repeat constructor);
    intros H; repeat (apply elem_of_cons in H as [H|H]; [discriminate|]);
    by apply not_elem_of_nil in H.
Defined.
